(** * web5-js: the HTTP transport, the JSON-RPC envelope codec and the
    Record data accessor

    A shallow embedding of

    - [src/transport/json-rpc.js]: the envelope builders;
    - [src/transport/http-transport.js]: [HttpTransport.encodeMessage],
      [decodeMessage] and [send];
    - the data accessor of [src/dwn/models/record.js], which is exercised by
      [tests/dwn/models/record.spec.js] but whose code is not among the
      sources: it is modelled from the specification, in [Module DataAccessor].

    JavaScript values are a tree type; an object is a finite map from property
    names to values ([gmap string value]), so that equality of two values is
    deep equality and does not depend on the order in which properties were
    created.  Calls that leave the module ([uuidv4], [fetch],
    [Encoder.base64UrlToObject], [parseJson], [response.json()]) are the
    operations of a small free monad, [Prog]; a [World] answers them and
    records them in a trace.

    Numbers are the integral ones and strings are made of 8-bit code units:
    fractions, exponents and the code units above 255 are outside the
    embedding. *)

From Stdlib Require Import Ascii String ZArith DecimalString DecimalZ DecimalPos DecimalFacts.
From stdpp Require Import gmap strings list fin_maps.

Local Open Scope string_scope.
Local Open Scope Z_scope.

(** ** JavaScript values *)

(** A [ReadableStream] is known by its identity only. *)
Definition stream := nat.

#[warnings="-register-all"]
Inductive value : Type :=
| VUndefined
| VNull
| VBool (b : bool)
| VNum (n : Z)                        (* integral numbers only *)
| VStr (s : string)
| VArr (elems : list value)
| VObj (props : gmap string value)    (* own enumerable properties *)
| VStream (body : stream)             (* a ReadableStream object *)
| VNative (name : string).            (* a built-in function found on a prototype *)

(** Size of a value, the measure of the inductions below. *)
Fixpoint vsize (v : value) : nat :=
  match v with
  | VArr l => S (foldr (fun x acc => (vsize x + acc)%nat) 0%nat l)
  | VObj o => S (map_fold (fun _ x acc => (vsize x + acc)%nat) 0%nat o)
  | _ => 1%nat
  end.

(** [String(n)] for an integral number: its decimal digits, after a minus sign
    when it is negative. *)
Definition Number_toString (n : Z) : string :=
  NilZero.string_of_int (Z.to_int n).

(** The elements of [l] under their indices, from [i] on. *)
Fixpoint indexed {A} (i : nat) (l : list A) : list (string * A) :=
  match l with
  | [] => []
  | x :: l' => (Number_toString (Z.of_nat i), x) :: indexed (S i) l'
  end.

(** The characters of [s], each a string of its own. *)
Fixpoint chars (s : string) : list value :=
  match s with
  | EmptyString => []
  | String c s' => VStr (String c EmptyString) :: chars s'
  end.

(** [{ ...v }]: the own enumerable properties copied by a spread.  [undefined],
    [null], numbers, booleans, functions and streams contribute nothing; an
    array contributes its elements and a string its characters, under their
    indices. *)
Definition spread (v : value) : gmap string value :=
  match v with
  | VObj o => o
  | VArr l => list_to_map (indexed 0 l)
  | VStr s => list_to_map (indexed 0 (chars s))
  | _ => ∅
  end.

(** Exceptions.  [Error msg] is [new Error(msg)]; the two others are the
    engine's own. *)
Inductive exn : Type :=
| Error (message : string)
| TypeError
| SyntaxError.

Abbreviation result A := (exn + A)%type (only parsing).
Abbreviation Ok := inr (only parsing).
Abbreviation Raise := inl (only parsing).

(** [v.k] for the property names this program reads ([result], [reply],
    [entries], [message], [record], [status]).  Reading a property of
    [undefined] or [null] throws; a missing property is [undefined].  Of the
    names read, the only one that a built-in prototype defines is [entries],
    on arrays. *)
Definition get (v : value) (k : string) : result value :=
  match v with
  | VUndefined | VNull => Raise TypeError
  | VObj o => Ok (default VUndefined (o !! k))
  | VArr l =>
      if decide (k = "entries") then Ok (VNative "Array.prototype.entries")
      else Ok (default VUndefined (list_to_map (M := gmap string value) (indexed 0 l) !! k))
  | VStr s => Ok (default VUndefined (list_to_map (M := gmap string value) (indexed 0 (chars s)) !! k))
  | _ => Ok VUndefined
  end.

(** The own property [k] of an object, if it has one. *)
Definition own (v : value) (k : string) : option value :=
  match v with
  | VObj o => o !! k
  | _ => None
  end.

(** ** JSON text

    Strings are sequences of 8-bit code units.  [JSON_stringify] follows
    ECMA-262 [SerializeJSONProperty]: [undefined] and functions have no JSON
    text, they are left out of objects and written [null] in arrays.  The
    members of an object are written in the order of the finite map, which is
    not the creation order of the engine; no reader of the text depends on
    it. *)

Definition dquote : ascii := "034"%char.
Definition backslash : ascii := "092"%char.

Definition hex_digit (n : N) : ascii :=
  ascii_of_N (if (n <? 10)%N then 48 + n else 87 + n).

Definition escape (c : ascii) : string :=
  let n := N_of_ascii c in
  if (n =? 8)%N then String backslash "b"
  else if (n =? 9)%N then String backslash "t"
  else if (n =? 10)%N then String backslash "n"
  else if (n =? 12)%N then String backslash "f"
  else if (n =? 13)%N then String backslash "r"
  else if (n =? 34)%N then String backslash (String dquote EmptyString)
  else if (n =? 92)%N then String backslash (String backslash EmptyString)
  else if (n <? 32)%N then
    String backslash
      (String "u" (String "0" (String "0"
         (String (hex_digit (n / 16)) (String (hex_digit (n mod 16)) EmptyString)))))
  else String c EmptyString.

Fixpoint quote_body (s : string) : string :=
  match s with
  | EmptyString => EmptyString
  | String c s' => escape c +:+ quote_body s'
  end.

Definition QuoteJSONString (s : string) : string :=
  String dquote (quote_body s +:+ String dquote EmptyString).

Fixpoint join_comma (l : list string) : string :=
  match l with
  | [] => EmptyString
  | [x] => x
  | x :: l' => x +:+ "," +:+ join_comma l'
  end.

Definition member_text (k : string) (t : string) : string :=
  QuoteJSONString k +:+ ":" +:+ t.

Fixpoint JSON_stringify (v : value) : option string :=
  match v with
  | VUndefined | VNative _ => None
  | VNull => Some "null"
  | VBool b => Some (if b then "true" else "false")
  | VNum n => Some (Number_toString n)
  | VStr s => Some (QuoteJSONString s)
  | VArr l =>
      Some ("[" +:+ join_comma (map (fun x => default "null" (JSON_stringify x)) l) +:+ "]")
  | VObj o =>
      Some ("{" +:+
            join_comma
              (map_fold
                 (fun k x acc =>
                    match JSON_stringify x with
                    | Some t => member_text k t :: acc
                    | None => acc
                    end) [] o) +:+ "}")
  | VStream _ => Some "{}"
  end.

(** [JSON.parse], as a recursive-descent reader.  A numeral with a fraction or
    an exponent, and a [\u] escape above 00FF, have no counterpart in [value]:
    the reader rejects them. *)

Definition is_ws (c : ascii) : bool :=
  let n := N_of_ascii c in
  (n =? 32)%N || (n =? 9)%N || (n =? 10)%N || (n =? 13)%N.

Fixpoint skip_ws (s : string) : string :=
  match s with
  | String c s' => if is_ws c then skip_ws s' else s
  | EmptyString => EmptyString
  end.

Definition hex_value (c : ascii) : option N :=
  let n := N_of_ascii c in
  if (48 <=? n)%N && (n <=? 57)%N then Some (n - 48)%N
  else if (97 <=? n)%N && (n <=? 102)%N then Some (n - 87)%N
  else if (65 <=? n)%N && (n <=? 70)%N then Some (n - 55)%N
  else None.

Definition unicode_escape (h1 h2 h3 h4 : ascii) : option ascii :=
  a ← hex_value h1; b ← hex_value h2; c ← hex_value h3; d ← hex_value h4;
  let n := (((a * 16 + b) * 16 + c) * 16 + d)%N in
  if (n <? 256)%N then Some (ascii_of_N n) else None.

Definition simple_escape (e : ascii) : option ascii :=
  let n := N_of_ascii e in
  if (n =? 34)%N then Some dquote
  else if (n =? 92)%N then Some backslash
  else if (n =? 47)%N then Some "/"%char
  else if (n =? 98)%N then Some "008"%char
  else if (n =? 102)%N then Some "012"%char
  else if (n =? 110)%N then Some "010"%char
  else if (n =? 114)%N then Some "013"%char
  else if (n =? 116)%N then Some "009"%char
  else None.

(** The characters of a string literal after its opening quote, up to and
    including the closing quote. *)
Fixpoint parse_string_body (s : string) : option (string * string) :=
  match s with
  | EmptyString => None
  | String c s' =>
      if (N_of_ascii c =? 34)%N then Some (EmptyString, s')
      else if (N_of_ascii c =? 92)%N then
        match s' with
        | EmptyString => None
        | String e s'' =>
            match simple_escape e with
            | Some c' =>
                match parse_string_body s'' with
                | Some (str, rest) => Some (String c' str, rest)
                | None => None
                end
            | None =>
                if (N_of_ascii e =? 117)%N then
                  match s'' with
                  | String h1 (String h2 (String h3 (String h4 s3))) =>
                      match unicode_escape h1 h2 h3 h4, parse_string_body s3 with
                      | Some c', Some (str, rest) => Some (String c' str, rest)
                      | _, _ => None
                      end
                  | _ => None
                  end
                else None
            end
        end
      else if (N_of_ascii c <? 32)%N then None
      else
        match parse_string_body s' with
        | Some (str, rest) => Some (String c str, rest)
        | None => None
        end
  end.

Definition digit_of (c : ascii) : option (Decimal.uint -> Decimal.uint) :=
  let n := N_of_ascii c in
  if (n =? 48)%N then Some Decimal.D0
  else if (n =? 49)%N then Some Decimal.D1
  else if (n =? 50)%N then Some Decimal.D2
  else if (n =? 51)%N then Some Decimal.D3
  else if (n =? 52)%N then Some Decimal.D4
  else if (n =? 53)%N then Some Decimal.D5
  else if (n =? 54)%N then Some Decimal.D6
  else if (n =? 55)%N then Some Decimal.D7
  else if (n =? 56)%N then Some Decimal.D8
  else if (n =? 57)%N then Some Decimal.D9
  else None.

(** The longest run of digits at the head of [s]. *)
Fixpoint parse_digits (s : string) : Decimal.uint * string :=
  match s with
  | EmptyString => (Decimal.Nil, EmptyString)
  | String c s' =>
      match digit_of c with
      | Some d => let '(u, rest) := parse_digits s' in (d u, rest)
      | None => (Decimal.Nil, s)
      end
  end.

(** Does the text go on with a fraction or an exponent? *)
Definition more_number (s : string) : bool :=
  match s with
  | String c _ =>
      let n := N_of_ascii c in (n =? 46)%N || (n =? 101)%N || (n =? 69)%N
  | EmptyString => false
  end.

Definition parse_unsigned (s : string) : option (Z * string) :=
  let '(u, rest) := parse_digits s in
  match u with
  | Decimal.Nil => None
  | Decimal.D0 (Decimal.Nil) => if more_number rest then None else Some (0, rest)
  | Decimal.D0 _ => None
  | _ => if more_number rest then None else Some (Z.of_uint u, rest)
  end.

Definition parse_number (s : string) : option (Z * string) :=
  match s with
  | String c s' =>
      if (N_of_ascii c =? 45)%N then
        match parse_unsigned s' with
        | Some (n, rest) => Some (- n, rest)
        | None => None
        end
      else parse_unsigned s
  | EmptyString => None
  end.

Fixpoint strip_prefix (w s : string) : option string :=
  match w with
  | EmptyString => Some s
  | String a w' =>
      match s with
      | String b s' => if Ascii.eqb a b then strip_prefix w' s' else None
      | EmptyString => None
      end
  end.

Definition keyword (w : string) (v : value) (s : string) : option (value * string) :=
  match strip_prefix w s with
  | Some rest => Some (v, rest)
  | None => None
  end.

(** The object created from the members read, in the order of the text: a
    repeated name keeps its last value. *)
Definition object_of (members : list (string * value)) : gmap string value :=
  foldl (fun m kv => <[kv.1 := kv.2]> m) ∅ members.

Fixpoint parse_value (fuel : nat) (s : string) {struct fuel} : option (value * string) :=
  match fuel with
  | O => None
  | S fuel' =>
      match skip_ws s with
      | EmptyString => None
      | String c s' =>
          let n := N_of_ascii c in
          if (n =? 34)%N then
            match parse_string_body s' with
            | Some (str, rest) => Some (VStr str, rest)
            | None => None
            end
          else if (n =? 91)%N then
            match skip_ws s' with
            | EmptyString => None
            | String c2 s2 =>
                if (N_of_ascii c2 =? 93)%N then Some (VArr [], s2)
                else
                  match parse_elements fuel' s' with
                  | Some (l, rest) => Some (VArr l, rest)
                  | None => None
                  end
            end
          else if (n =? 123)%N then
            match skip_ws s' with
            | EmptyString => None
            | String c2 s2 =>
                if (N_of_ascii c2 =? 125)%N then Some (VObj ∅, s2)
                else
                  match parse_members fuel' s' with
                  | Some (l, rest) => Some (VObj (object_of l), rest)
                  | None => None
                  end
            end
          else if (n =? 110)%N then keyword "null" VNull (String c s')
          else if (n =? 116)%N then keyword "true" (VBool true) (String c s')
          else if (n =? 102)%N then keyword "false" (VBool false) (String c s')
          else
            match parse_number (String c s') with
            | Some (z, rest) => Some (VNum z, rest)
            | None => None
            end
      end
  end

with parse_elements (fuel : nat) (s : string) {struct fuel} : option (list value * string) :=
  match fuel with
  | O => None
  | S fuel' =>
      match parse_value fuel' s with
      | None => None
      | Some (v, rest) =>
          match skip_ws rest with
          | EmptyString => None
          | String c r =>
              if (N_of_ascii c =? 44)%N then
                match parse_elements fuel' r with
                | Some (vs, rest') => Some (v :: vs, rest')
                | None => None
                end
              else if (N_of_ascii c =? 93)%N then Some ([v], r)
              else None
          end
      end
  end

with parse_members (fuel : nat) (s : string) {struct fuel}
  : option (list (string * value) * string) :=
  match fuel with
  | O => None
  | S fuel' =>
      match skip_ws s with
      | EmptyString => None
      | String c s1 =>
          if negb (N_of_ascii c =? 34)%N then None
          else
            match parse_string_body s1 with
            | None => None
            | Some (k, s2) =>
                match skip_ws s2 with
                | EmptyString => None
                | String c2 s3 =>
                    if negb (N_of_ascii c2 =? 58)%N then None
                    else
                      match parse_value fuel' s3 with
                      | None => None
                      | Some (v, s4) =>
                          match skip_ws s4 with
                          | EmptyString => None
                          | String c3 s5 =>
                              if (N_of_ascii c3 =? 44)%N then
                                match parse_members fuel' s5 with
                                | Some (ms, rest') => Some ((k, v) :: ms, rest')
                                | None => None
                                end
                              else if (N_of_ascii c3 =? 125)%N then Some ([(k, v)], s5)
                              else None
                          end
                      end
                end
            end
      end
  end.

Definition JSON_parse (s : string) : result value :=
  match parse_value (S (String.length s)) s with
  | Some (v, rest) =>
      match skip_ws rest with
      | EmptyString => Ok v
      | String _ _ => Raise SyntaxError
      end
  | None => Raise SyntaxError
  end.

(** An object literal [{ k1: v1, ..., kn: vn }]. *)
Definition object (l : list (string * value)) : value := VObj (object_of l).

(** ** src/transport/json-rpc.js *)

Module JsonRpcErrorCodes.
Definition InvalidRequest : Z := -32600.
Definition MethodNotFound : Z := -32601.
Definition InvalidParams : Z := -32602.
Definition InternalError : Z := -32603.
Definition ParseError : Z := -32700.
Definition BadRequest : Z := -50400.
Definition Unauthorized : Z := -50401.
Definition Forbidden : Z := -50403.
End JsonRpcErrorCodes.

Definition createJsonRpcErrorResponse (id code message data : value) : value :=
  let error := object_of [("code", code); ("message", message)] in
  let error :=
    match data with
    | VUndefined => error
    | _ => <["data" := data]> error
    end in
  object [("jsonrpc", VStr "2.0"); ("id", id); ("error", VObj error)].

Definition createJsonRpcNotification (method params : value) : value :=
  object [("jsonrpc", VStr "2.0"); ("method", method); ("params", params)].

Definition createJsonRpcRequest (id method params : value) : value :=
  object [("jsonrpc", VStr "2.0"); ("id", id); ("method", method); ("params", params)].

Definition createJsonRpcSuccessResponse (id result : value) : value :=
  object [("jsonrpc", VStr "2.0"); ("id", id);
          ("result", match result with VUndefined | VNull => VNull | _ => result end)].

(** ** Calls that leave the module, and programs that make them *)

Record Response : Type := {
  status : Z;
  headers_get : string -> option string;   (* response.headers.get(name) *)
  body : option stream;                    (* response.body: null when there is no body *)
}.

(** [response.body] as a value: the stream, or [null] for a response that has
    no body, as one with status 204 has. *)
Definition Response_body (r : Response) : value :=
  match body r with
  | Some s => VStream s
  | None => VNull
  end.

(** [response.ok] *)
Definition Response_ok (r : Response) : bool :=
  (200 <=? status r) && (status r <=? 299).

Record RequestInit : Type := {
  req_method : string;
  req_mode : string;
  req_cache : string;
  req_headers : list (string * string);
  req_body : value;
}.

Inductive call : Type :=
| uuidv4
| fetch (endpoint : string) (init : RequestInit)
| Encoder_base64UrlToObject (text : string)
| parseJson (text : string)
| Response_json (response : Response).

Definition answer (c : call) : Type :=
  match c with
  | uuidv4 => string
  | fetch _ _ => result Response
  | Encoder_base64UrlToObject _ | parseJson _ | Response_json _ => result value
  end.

Inductive Prog (A : Type) : Type :=
| Ret (a : A)
| Throw (e : exn)
| Call (c : call) (k : answer c -> Prog A).
Arguments Ret {A} a.
Arguments Throw {A} e.
Arguments Call {A} c k.

Fixpoint bind {A B} (p : Prog A) (f : A -> Prog B) : Prog B :=
  match p with
  | Ret a => f a
  | Throw e => Throw e
  | Call c k => Call c (fun x => bind (k x) f)
  end.

#[global] Instance Prog_ret : MRet Prog := @Ret.
#[global] Instance Prog_bind : MBind Prog := fun A B f p => bind p f.

(** [perform c]: make the call and take its answer. *)
Definition perform (c : call) : Prog (answer c) := Call c Ret.

(** The value of a call that returned, or of a promise that was fulfilled; a
    thrown exception or a rejected promise ends the program. *)
Definition settle {A} (r : result A) : Prog A :=
  match r with
  | inl e => Throw e
  | inr a => Ret a
  end.

(** Straight-line code that may throw. *)
#[global] Instance result_bind : MBind (sum exn) := fun A B f r =>
  match r with
  | inl e => inl e
  | inr a => f a
  end.

(** ** src/transport/http-transport.js *)

Record LogicalRequest : Type := {
  message : value;
  author : value;
  target : value;
  data : value;
}.

Definition DWN_MESSAGE_HEADER : string := "dwn-request".
Definition DWN_RESPONSE_HEADER : string := "dwn-response".
Definition WEB5_RESPONSE_HEADER : string := "WEB5-RESPONSE".

(** The text a string-typed position receives from [JSON.stringify]. *)
Definition text_of (t : option string) : string := default "undefined" t.

Definition encodeMessage (message : value) : Prog (option string) :=
  mret (JSON_stringify message).

Definition decodeMessage (message : string) : Prog value :=
  perform (parseJson message) ≫= settle.

(** [if (header)]: a header that is absent ([null]) or empty is falsy. *)
Definition truthy (header : option string) : bool :=
  match header with
  | Some (String _ _) => true
  | _ => false
  end.

(** [const { entries = null, message, record, status } = reply;
    return { entries, message, record: { ...record, data: body }, status }] *)
Definition reply_with_body (reply : value) (body : value) : result value :=
  entries ← get reply "entries";
  message ← get reply "message";
  record ← get reply "record";
  status ← get reply "status";
  let entries := match entries with VUndefined => VNull | _ => entries end in
  Ok (object [("entries", entries);
              ("message", message);
              ("record", VObj (<["data" := body]> (spread record)));
              ("status", status)]).

(** [responseJson.result.reply] *)
Definition result_reply (responseJson : value) : result value :=
  result ← get responseJson "result";
  get result "reply".

(** The JSON-RPC request of [send]. *)
Definition dwnRequest_of (requestId : string) (request : LogicalRequest) : value :=
  createJsonRpcRequest (VStr requestId) (VStr "dwn.processMessage")
    (VObj (<["target" := target request]>
             (<["author" := author request]> (spread (message request))))).

(** The options [send] passes to [fetch]. *)
Definition fetch_init (encoded : option string) (request : LogicalRequest) : RequestInit :=
  {| req_method := "POST";
     req_mode := "cors";
     req_cache := "no-cache";
     req_headers := [(DWN_MESSAGE_HEADER, text_of encoded)];
     req_body := data request |}.

Definition send (endpoint : string) (request : LogicalRequest) : Prog value :=
  requestId ← perform uuidv4;
  let dwnRequest := dwnRequest_of requestId request in
  encoded ← encodeMessage dwnRequest;
  response ← perform (fetch endpoint (fetch_init encoded request)) ≫= settle;
  if negb (Response_ok response) then
    Throw (Error ("Fetch failed with status " +:+ Number_toString (status response)))
  else
    let dwnResponseHeader := headers_get response DWN_RESPONSE_HEADER in
    let web5ResponseHeader := headers_get response WEB5_RESPONSE_HEADER in
    if truthy web5ResponseHeader then
      decoded ← perform (Encoder_base64UrlToObject (default EmptyString web5ResponseHeader)) ≫= settle;
      settle (reply_with_body decoded (Response_body response))
    else if truthy dwnResponseHeader then
      responseJson ← decodeMessage (default EmptyString dwnResponseHeader);
      reply ← settle (result_reply responseJson);
      settle (reply_with_body reply (Response_body response))
    else
      responseJson ← perform (Response_json response) ≫= settle;
      settle (result_reply responseJson).

(** ** The world that answers the calls *)

Record World : Type := {
  uuids : nat -> string;                       (* the identifiers uuidv4 hands out, in turn *)
  issued : nat;                                (* how many it has handed out *)
  network : string -> RequestInit -> result Response;
  base64UrlToObject : string -> result value;  (* Encoder, of @tbd54566975/dwn-sdk-js *)
  utils_parseJson : string -> result value;    (* parseJson, of ../utils.js *)
  body_json : stream -> result value;          (* what response.json() makes of a stream's content *)
  disturbed : gset stream;                     (* the streams that have been read *)
  trace : list call;                           (* the calls made, the latest last *)
}.

Definition with_issued (n : nat) (w : World) : World :=
  {| uuids := uuids w; issued := n; network := network w;
     base64UrlToObject := base64UrlToObject w; utils_parseJson := utils_parseJson w;
     body_json := body_json w; disturbed := disturbed w; trace := trace w |}.

Definition with_disturbed (d : gset stream) (w : World) : World :=
  {| uuids := uuids w; issued := issued w; network := network w;
     base64UrlToObject := base64UrlToObject w; utils_parseJson := utils_parseJson w;
     body_json := body_json w; disturbed := d; trace := trace w |}.

Definition with_trace (t : list call) (w : World) : World :=
  {| uuids := uuids w; issued := issued w; network := network w;
     base64UrlToObject := base64UrlToObject w; utils_parseJson := utils_parseJson w;
     body_json := body_json w; disturbed := disturbed w; trace := t |}.

(** [response.json()] reads the body to its end and parses what it
    delivered; a body that was read before cannot be read again.  Without a
    body there is nothing to read, and the empty text is no JSON text. *)
Definition read_json (w : World) (r : Response) : result value * World :=
  match body r with
  | None => (Raise SyntaxError, w)
  | Some s =>
      if decide (s ∈ disturbed w) then (Raise TypeError, w)
      else (body_json w s, with_disturbed ({[s]} ∪ disturbed w) w)
  end.

Definition handle (w : World) (c : call) : answer c * World :=
  match c return answer c * World with
  | uuidv4 => (uuids w (issued w), with_issued (S (issued w)) w)
  | fetch endpoint init => (network w endpoint init, w)
  | Encoder_base64UrlToObject text => (base64UrlToObject w text, w)
  | parseJson text => (utils_parseJson w text, w)
  | Response_json r => read_json w r
  end.

Fixpoint run {A} (p : Prog A) (w : World) : result A * World :=
  match p with
  | Ret a => (Ok a, w)
  | Throw e => (Raise e, w)
  | Call c k =>
      let '(x, w') := handle w c in
      run (k x) (with_trace (trace w' ++ [c])%list w')
  end.

(** ** The data accessor of a Record *)

Module DataAccessor.

(** Modelled from the spec: what the deferred fetch of a Record built
    without payload returns ([src/dwn/models/record.js] is not among the
    sources): a stream or bytes. *)
Inductive Fetched : Type :=
| FetchedBytes (bytes : string)
| FetchedStream (handle : stream).

(** Modelled from the spec: the [DataSource] of a Record (section 3), a
    tagged union of held bytes, a one-shot stream, and a pending fetch. *)
Inductive DataSource : Type :=
| Bytes (buffer : string)
| Stream (handle : stream)
| Pending (fetchFn : unit -> Fetched).

(** Modelled from the spec: the states of the accessor (section 4.4). *)
Inductive Phase : Type := Unread | Materializing | Cached | Exhausted.

(** Modelled from the spec: the two read operations, parsed JSON and raw
    bytes; there is no other operation on an accessor. *)
Inductive Read : Type := AsJson | AsBytes.

(** Modelled from the spec: what a read resolves with, the parsed JSON value
    or the raw bytes. *)
Inductive Payload : Type :=
| Json (v : value)
| Raw (bytes : string).

(** Modelled from the spec: the failures of a read (section 7). *)
Inductive Failure : Type := DecodeError | StreamExhaustedError.

(** Modelled from the spec: how a read settles. *)
Inductive Outcome : Type :=
| Resolved (p : Payload)
| Rejected (f : Failure).

(** Modelled from the spec: the accessor of a Record.  [held] is the buffer
    the reads decode from, [memo] the decoded value kept after the first
    successful decode, [waiting] the callers attached to the read in
    flight.  The three counters record the work done: fetches against the
    owning node, streams consumed, texts decoded. *)
Record Accessor : Type := {
  source : DataSource;
  phase : Phase;
  held : option string;
  memo : option value;
  waiting : list (nat * Read);
  fetches : nat;
  consumptions : nat;
  decodes : nat;
}.

(** Modelled from the spec: construction of a Record from optional
    [encodedData] bytes, an optional [data] stream and the injected fetch;
    exactly one variant is populated, encoded bytes first. *)
Definition new (encodedData : option string) (data : option stream)
    (fetchFn : unit -> Fetched) : Accessor :=
  {| source := match encodedData, data with
               | Some b, _ => Bytes b
               | None, Some s => Stream s
               | None, None => Pending fetchFn
               end;
     phase := Unread;
     held := encodedData;
     memo := None;
     waiting := [];
     fetches := 0; consumptions := 0; decodes := 0 |}.

(** Modelled from the spec: one read served from the bytes [buf]: raw bytes
    as they are; parsed JSON from the memo when there is one, otherwise by
    decoding, and the decoded value is memoized when decoding succeeds. *)
Definition serve (buf : string) (k : Read) (a : Accessor) : Outcome * Accessor :=
  match k with
  | AsBytes => (Resolved (Raw buf), a)
  | AsJson =>
      match memo a with
      | Some v => (Resolved (Json v), a)
      | None =>
          match JSON_parse buf with
          | inr v =>
              (Resolved (Json v),
               {| source := source a; phase := phase a; held := held a;
                  memo := Some v; waiting := waiting a; fetches := fetches a;
                  consumptions := consumptions a; decodes := S (decodes a) |})
          | inl _ =>
              (Rejected DecodeError,
               {| source := source a; phase := phase a; held := held a;
                  memo := memo a; waiting := waiting a; fetches := fetches a;
                  consumptions := consumptions a; decodes := S (decodes a) |})
          end
      end
  end.

Definition wants_json (w : nat * Read) : bool :=
  match w.2 with
  | AsJson => true
  | AsBytes => false
  end.

(** Modelled from the spec: the callers attached to one read in flight are
    served together.  The text is decoded once, and every caller that asked
    for JSON receives the outcome of that one decode. *)
Definition serve_all (buf : string) (ws : list (nat * Read)) (a : Accessor)
  : list (nat * Outcome) * Accessor :=
  if existsb wants_json ws then
    let '(decoded, a') := serve buf AsJson a in
    (map (fun w => (w.1, if wants_json w then decoded else Resolved (Raw buf))) ws, a')
  else
    (map (fun w => (w.1, Resolved (Raw buf))) ws, a).

Definition set_phase (p : Phase) (a : Accessor) : Accessor :=
  {| source := source a; phase := p; held := held a; memo := memo a;
     waiting := waiting a; fetches := fetches a;
     consumptions := consumptions a; decodes := decodes a |}.

(** Modelled from the spec: caller [c] issues a read.  On an unread
    accessor, held bytes are decoded at once; a stream starts to be
    consumed, and a pending source starts its fetch, both leaving the
    accessor materializing with [c] attached.  A call that finds a read in
    flight attaches to it and starts nothing.  Once the accessor is cached,
    a held buffer serves every call again; without a held buffer the stream
    is gone and the call fails. *)
Definition issue (c : nat) (k : Read) (a : Accessor) : list (nat * Outcome) * Accessor :=
  match phase a with
  | Unread =>
      match source a with
      | Bytes buf =>
          let '(o, a') := serve buf k (set_phase Cached a) in ([(c, o)], a')
      | Stream _ =>
          ([], {| source := source a; phase := Materializing; held := held a;
                  memo := memo a; waiting := [(c, k)]; fetches := fetches a;
                  consumptions := S (consumptions a); decodes := decodes a |})
      | Pending _ =>
          ([], {| source := source a; phase := Materializing; held := held a;
                  memo := memo a; waiting := [(c, k)]; fetches := S (fetches a);
                  consumptions := consumptions a; decodes := decodes a |})
      end
  | Materializing =>
      ([], {| source := source a; phase := Materializing; held := held a;
              memo := memo a; waiting := (waiting a ++ [(c, k)])%list; fetches := fetches a;
              consumptions := consumptions a; decodes := decodes a |})
  | Cached =>
      match held a with
      | Some buf => let '(o, a') := serve buf k a in ([(c, o)], a')
      | None => ([(c, Rejected StreamExhaustedError)], set_phase Exhausted a)
      end
  | Exhausted => ([(c, Rejected StreamExhaustedError)], a)
  end.

(** Modelled from the spec: the read in flight completes.  Every attached
    caller is served from the bytes that arrived, through the one memo; the
    accessor becomes cached.  Bytes that a fetch returned are held; the
    bytes of a stream are not. *)
Definition finish (content : stream -> string) (a : Accessor)
  : list (nat * Outcome) * Accessor :=
  match phase a with
  | Materializing =>
      let ws := waiting a in
      let settled (a0 : Accessor) (h : option string) (n : nat) :=
        {| source := source a0; phase := Cached; held := h; memo := memo a0;
           waiting := []; fetches := fetches a0; consumptions := n;
           decodes := decodes a0 |} in
      match source a with
      | Bytes buf =>
          let '(os, a') := serve_all buf ws a in (os, settled a' (Some buf) (consumptions a'))
      | Stream h =>
          let '(os, a') := serve_all (content h) ws a in (os, settled a' None (consumptions a'))
      | Pending fetchFn =>
          match fetchFn tt with
          | FetchedBytes b =>
              let '(os, a') := serve_all b ws a in (os, settled a' (Some b) (consumptions a'))
          | FetchedStream h =>
              let '(os, a') := serve_all (content h) ws a in
              (os, settled a' None (S (consumptions a')))
          end
      end
  | _ => ([], a)
  end.

(** Modelled from the spec: a read made alone, from its call to its
    outcome. *)
Definition read (content : stream -> string) (k : Read) (a : Accessor)
  : option Outcome * Accessor :=
  let '(os, a1) := issue 0 k a in
  match os with
  | (_, o) :: _ => (Some o, a1)
  | [] =>
      let '(os', a2) := finish content a1 in
      (snd <$> head os', a2)
  end.

(** Modelled from the spec: a run of reads, each made after the one before
    it has settled. *)
Fixpoint reads (content : stream -> string) (ks : list Read) (a : Accessor)
  : list (option Outcome) * Accessor :=
  match ks with
  | [] => ([], a)
  | k :: ks' =>
      let '(o, a') := read content k a in
      let '(os, a'') := reads content ks' a' in
      (o :: os, a'')
  end.

(** Modelled from the spec: the events of an accessor in use, as the one
    thread of control of section 5 orders them: a caller issues a read, or
    the read in flight completes. *)
Inductive Event : Type :=
| Issue (c : nat) (k : Read)
| Finish.

Definition step (content : stream -> string) (e : Event) (a : Accessor)
  : list (nat * Outcome) * Accessor :=
  match e with
  | Issue c k => issue c k a
  | Finish => finish content a
  end.

Fixpoint steps (content : stream -> string) (es : list Event) (a : Accessor)
  : list (nat * Outcome) * Accessor :=
  match es with
  | [] => ([], a)
  | e :: es' =>
      let '(os, a') := step content e a in
      let '(os', a'') := steps content es' a' in
      ((os ++ os')%list, a'')
  end.

(** What a read of kind [k] yields from the bytes [b]. *)
Definition expected (b : string) (k : Read) : Outcome :=
  match k with
  | AsBytes => Resolved (Raw b)
  | AsJson =>
      match JSON_parse b with
      | inr v => Resolved (Json v)
      | inl _ => Rejected DecodeError
      end
  end.

(** The memo, when there is one, is the decoded form of the bytes [b]. *)
Definition memo_of (b : string) (a : Accessor) : Prop :=
  forall v, memo a = Some v -> JSON_parse b = inr v.

(** The accessor is cached and holds the bytes [b]. *)
Definition holds (b : string) (a : Accessor) : Prop :=
  phase a = Cached /\ held a = Some b /\ memo_of b a.

(** The payload is gone: the stream was consumed and nothing is held. *)
Definition gone (a : Accessor) : Prop :=
  (phase a = Cached \/ phase a = Exhausted) /\ held a = None.



End DataAccessor.

(** ** Values that JSON text carries unchanged *)

(** The integers that a JavaScript number holds exactly. *)
Definition safe_integer (n : Z) : bool :=
  (-9007199254740991 <=? n) && (n <=? 9007199254740991).

(** A serializable value is made of [null], booleans, safe integers, strings,
    arrays and objects only. *)
Fixpoint serializable (v : value) : bool :=
  match v with
  | VNull | VBool _ | VStr _ => true
  | VNum n => safe_integer n
  | VArr l => forallb serializable l
  | VObj o => map_fold (fun _ x acc => serializable x && acc) true o
  | VUndefined | VStream _ | VNative _ => false
  end.

(** Modelled from the spec: [parseJson] of [src/utils.js], which is not among
    the sources.  Section 4.2 makes [decodeMessage], which only calls it, a
    pure deserialization of the wire text that fails on malformed input
    only: it is [JSON.parse]. *)
Definition parseJson_spec (text : string) : result value := JSON_parse text.

(** The world after [send] has drawn its identifier and made its exchange. *)
Definition exchanged (endpoint : string) (request : LogicalRequest) (w : World) : World :=
  let requestId := uuids w (issued w) in
  with_trace
    (trace w ++ [uuidv4;
                 fetch endpoint
                   (fetch_init (JSON_stringify (dwnRequest_of requestId request)) request)])%list
    (with_issued (S (issued w)) w).

(** The answer of the network to the exchange of [send]. *)
Definition exchange (endpoint : string) (request : LogicalRequest) (w : World)
  : result Response :=
  network w endpoint
    (fetch_init (JSON_stringify (dwnRequest_of (uuids w (issued w)) request)) request).

Definition traced (c : call) (w : World) : World :=
  with_trace (trace w ++ [c])%list w.

(** ** Notions used in the proofs about JSON text *)

(** The text that follows a value in well-formed JSON starts with a comma or a
    closing bracket, or is empty. *)
Definition delim (rest : string) : Prop :=
  match rest with
  | EmptyString => True
  | String c _ => c = ","%char \/ c = "]"%char \/ c = "}"%char
  end.

Definition no_digit (rest : string) : Prop :=
  match rest with
  | EmptyString => True
  | String c _ => digit_of c = None
  end.

(** The characters a numeral starts with. *)
Definition numhead (c : ascii) : bool :=
  let n := N_of_ascii c in (n =? 45)%N || ((48 <=? n)%N && (n <=? 57)%N).

(** The text of a value inside an array, and of a member inside an object. *)
Definition jtext (v : value) : string := default "null" (JSON_stringify v).

Definition mtext (kv : string * value) : string := member_text kv.1 (jtext kv.2).

Definition starts_value (t : string) : Prop :=
  exists c t', t = String c t' /\ is_ws c = false /\
               (N_of_ascii c =? 93)%N = false /\ (N_of_ascii c =? 125)%N = false.

(** [v] has a text, and the reader gives [v] back from it, whatever follows. *)
Definition reads_back (v : value) : Prop :=
  is_Some (JSON_stringify v) /\ starts_value (jtext v) /\
  forall fuel rest, (String.length (jtext v) < fuel)%nat -> delim rest ->
    parse_value fuel (jtext v +:+ rest) = Some (v, rest).

(** ** Example worlds *)

(** The decoder of the example worlds: base64url without padding, then
    [JSON.parse], as [Encoder.base64UrlToObject] does. *)
Definition base64url_digit (c : ascii) : option N :=
  let n := N_of_ascii c in
  if (65 <=? n)%N && (n <=? 90)%N then Some (n - 65)%N
  else if (97 <=? n)%N && (n <=? 122)%N then Some (n - 71)%N
  else if (48 <=? n)%N && (n <=? 57)%N then Some (n + 4)%N
  else if (n =? 45)%N then Some 62%N
  else if (n =? 95)%N then Some 63%N
  else None.

Fixpoint base64url_decode (s : string) : option string :=
  match s with
  | EmptyString => Some EmptyString
  | String a (String b EmptyString) =>
      x ← base64url_digit a; y ← base64url_digit b;
      Some (String (ascii_of_N ((x * 64 + y) / 16)) EmptyString)
  | String a (String b (String c EmptyString)) =>
      x ← base64url_digit a; y ← base64url_digit b; z ← base64url_digit c;
      let n := ((x * 64 + y) * 64 + z)%N in
      Some (String (ascii_of_N (n / 1024)) (String (ascii_of_N ((n / 4) mod 256)) EmptyString))
  | String a (String b (String c (String d rest))) =>
      x ← base64url_digit a; y ← base64url_digit b; z ← base64url_digit c;
      t ← base64url_digit d;
      let n := (((x * 64 + y) * 64 + z) * 64 + t)%N in
      tail ← base64url_decode rest;
      Some (String (ascii_of_N (n / 65536))
              (String (ascii_of_N ((n / 256) mod 256))
                 (String (ascii_of_N (n mod 256)) tail)))
  | String _ EmptyString => None
  end.

Definition example_base64UrlToObject (text : string) : result value :=
  match base64url_decode text with
  | Some bytes => JSON_parse bytes
  | None => Raise (Error "Non-base64url character")
  end.

Definition example_endpoint : string := "https://dwn.example/".

Definition example_request : LogicalRequest :=
  {| message := object [("recordId", VStr "r1"); ("author", VStr "did:example:mallory")];
     author := VStr "did:example:alice";
     target := VStr "did:example:bob";
     data := VUndefined |}.

Definition example_status : value :=
  object [("code", VNum 200); ("detail", VStr "OK")].

(** A response with the given status and headers; its body is stream 7. *)
Definition example_response (code : Z) (headers : list (string * string)) : Response :=
  {| status := code;
     headers_get := fun name => (list_to_map headers : gmap string string) !! name;
     body := Some 7%nat |}.

(** A world whose network always answers [response], and whose body streams
    all hold [text], which [response.json()] parses. *)
Definition example_world (response : Response) (text : string) : World :=
  {| uuids := fun n => "uuid-" +:+ Number_toString (Z.of_nat n);
     issued := 0;
     network := fun _ _ => Ok response;
     base64UrlToObject := example_base64UrlToObject;
     utils_parseJson := parseJson_spec;
     body_json := fun _ => JSON_parse text;
     disturbed := ∅;
     trace := [] |}.

(** A JSON-RPC success envelope whose reply has a status and no record. *)
Definition example_envelope : value :=
  object [("jsonrpc", VStr "2.0"); ("id", VStr "uuid-0");
          ("result", object [("reply", object [("status", example_status)])])].

Definition example_envelope_text : string := text_of (JSON_stringify example_envelope).

(** base64url of the JSON text of an object with a [status] member only, and
    of one with a [record] member too. *)
Definition example_legacy_header : string :=
  "eyJzdGF0dXMiOnsiY29kZSI6MjAwLCJkZXRhaWwiOiJPSyJ9fQ".

Definition example_legacy_header_record : string :=
  "eyJyZWNvcmQiOnsicmVjb3JkSWQiOiJyMSIsImRhdGEiOiJvbGQifSwic3RhdHVzIjp7ImNvZGUiOjIwMCwiZGV0YWlsIjoiT0sifX0".

Definition response_500 : Response := example_response 500 [].

Definition response_legacy : Response :=
  example_response 200 [(WEB5_RESPONSE_HEADER, example_legacy_header)].

Definition response_legacy_record : Response :=
  example_response 200 [(WEB5_RESPONSE_HEADER, example_legacy_header_record)].

Definition response_current : Response :=
  example_response 200 [(DWN_RESPONSE_HEADER, example_envelope_text)].

(** The legacy header is there, with an empty value. *)
Definition response_empty_legacy : Response :=
  example_response 200 [(WEB5_RESPONSE_HEADER, EmptyString)].

(** A response with status 204, which has no body, and with the legacy
    header, whose object has a [record]. *)
Definition response_no_content : Response :=
  {| status := 204;
     headers_get := headers_get response_legacy_record;
     body := None |}.

(** ** What JSON text keeps of a value *)

(** [JSON.parse(JSON.stringify(v))], when [JSON.stringify(v)] is a text:
    members that are [undefined] or functions are dropped, such elements of
    an array become [null], and a stream, which has no enumerable property of
    its own, becomes the empty object. *)
Fixpoint JSON_image (v : value) : option value :=
  match v with
  | VUndefined | VNative _ => None
  | VNull | VBool _ | VNum _ | VStr _ => Some v
  | VArr l => Some (VArr (map (fun x => default VNull (JSON_image x)) l))
  | VObj o => Some (VObj (omap JSON_image o))
  | VStream _ => Some (VObj ∅)
  end.

(** The numbers inside [v] are safe integers. *)
Fixpoint encodable (v : value) : bool :=
  match v with
  | VNum n => safe_integer n
  | VArr l => forallb encodable l
  | VObj o => map_fold (fun _ x acc => encodable x && acc) true o
  | _ => true
  end.

(** No code unit of [s] is a control character (below 32): [s] holds no NUL,
    no carriage return and no line feed, which no header value may hold. *)
Fixpoint header_safe (s : string) : bool :=
  match s with
  | EmptyString => true
  | String c s' => (32 <=? N_of_ascii c)%N && header_safe s'
  end.

(** The reader gives [i] from the text [t], whatever follows. *)
Definition reads_as (t : string) (i : value) : Prop :=
  starts_value t /\
  forall fuel rest, (String.length t < fuel)%nat -> delim rest ->
    parse_value fuel (t +:+ rest) = Some (i, rest).

(** [v] has a text exactly when it has an image, and the reader gives the
    image from the text. *)
Definition reads_image (v : value) : Prop :=
  match JSON_stringify v, JSON_image v with
  | Some t, Some i => reads_as t i
  | None, None => True
  | _, _ => False
  end.

(** The members of an object that have a text, each with its text and its
    image. *)
Definition image_members (l : list (string * value)) : list (string * (string * value)) :=
  omap (fun kx => t ← JSON_stringify kx.2; i ← JSON_image kx.2; Some (kx.1, (t, i))) l.

(** ** More example worlds *)

(** A world whose network is down: [fetch] rejects. *)
Definition example_offline_world : World :=
  {| uuids := fun n => "uuid-" +:+ Number_toString (Z.of_nat n);
     issued := 0;
     network := fun _ _ => Raise TypeError;
     base64UrlToObject := example_base64UrlToObject;
     utils_parseJson := parseJson_spec;
     body_json := fun _ => Raise SyntaxError;
     disturbed := ∅;
     trace := [] |}.

(** A 2xx response with neither header. *)
Definition response_plain : Response := example_response 200 [].

(** The legacy header holds base64url of the text [null]. *)
Definition response_legacy_null : Response :=
  example_response 200 [(WEB5_RESPONSE_HEADER, "bnVsbA")].

(** A JSON-RPC error response, and its text. *)
Definition example_error_response : value :=
  createJsonRpcErrorResponse (VStr "uuid-0") (VNum JsonRpcErrorCodes.InvalidParams)
    (VStr "Invalid params") VUndefined.

Definition example_error_text : string := text_of (JSON_stringify example_error_response).

(** A request whose author is not given, with a stream as its data. *)
Definition example_anonymous_request : LogicalRequest :=
  {| message := object [("recordId", VStr "r1"); ("author", VStr "did:example:mallory")];
     author := VUndefined;
     target := VStr "did:example:bob";
     data := VStream 3%nat |}.


(** * Proofs *)

(** ** The model at work *)

Example JSON_stringify_array :
  JSON_stringify (VArr [VNum 1; VUndefined; VBool true; VNum (-20)])
  = Some "[1,null,true,-20]".
Proof. reflexivity. Qed.

Example JSON_stringify_omits_undefined :
  JSON_stringify (object [("a", VUndefined); ("b", VNum 2)])
  = JSON_stringify (object [("b", VNum 2)]).
Proof. vm_compute. reflexivity. Qed.

Example JSON_parse_whitespace :
  JSON_parse " [ 1 , [ ] , { } , null ] " = Ok (VArr [VNum 1; VArr []; VObj ∅; VNull]).
Proof. vm_compute. reflexivity. Qed.

Example JSON_parse_trailing_comma : JSON_parse "[1,]" = Raise SyntaxError.
Proof. vm_compute. reflexivity. Qed.

Example JSON_parse_leading_zero : JSON_parse "01" = Raise SyntaxError.
Proof. vm_compute. reflexivity. Qed.

Example JSON_parse_last_member_wins :
  JSON_parse ("{" +:+ QuoteJSONString "a" +:+ ":1," +:+ QuoteJSONString "a" +:+ ":2}")
  = Ok (object [("a", VNum 2)]).
Proof. vm_compute. reflexivity. Qed.

Example spread_string :
  spread (VStr "ab") = object_of [("0", VStr "a"); ("1", VStr "b")].
Proof. vm_compute. reflexivity. Qed.

Example example_legacy_header_decodes :
  example_base64UrlToObject example_legacy_header = Ok (object [("status", example_status)]).
Proof. vm_compute. reflexivity. Qed.

Example example_request_params :
  own (dwnRequest_of "uuid-0" example_request) "params"
  = Some (object [("recordId", VStr "r1");
                  ("author", VStr "did:example:alice");
                  ("target", VStr "did:example:bob")]).
Proof. vm_compute. reflexivity. Qed.

(** ** Strings, and the induction principle of values *)

Lemma strapp_cons c (s t : string) : String c s +:+ t = String c (s +:+ t).
Proof. reflexivity. Qed.

Lemma strlen_app (s t : string) : String.length (s +:+ t) = (String.length s + String.length t)%nat.
Proof. induction s as [|c s IH]; [reflexivity|]. rewrite !strapp_cons. simpl. by rewrite IH. Qed.

Lemma strapp_assoc (s t u : string) : (s +:+ t) +:+ u = s +:+ (t +:+ u).
Proof. induction s as [|c s IH]; [reflexivity|]. rewrite !strapp_cons. simpl. by rewrite IH. Qed.

Lemma strapp_nil_r (s : string) : s +:+ EmptyString = s.
Proof. induction s as [|c s IH]; [reflexivity|]. rewrite !strapp_cons. simpl. by rewrite IH. Qed.

Lemma foldr_vsize_elem (l : list value) x :
  x ∈ l → (vsize x ≤ foldr (fun x acc => (vsize x + acc)%nat) 0%nat l)%nat.
Proof.
  induction 1 as [x l|x y l _ IH]; simpl; lia.
Qed.

Lemma vsize_elem l x : x ∈ l → (vsize x < vsize (VArr l))%nat.
Proof. intros H. simpl. apply foldr_vsize_elem in H. lia. Qed.

Lemma foldr_vsize_pair (l : list (string * value)) p :
  p ∈ l →
  (vsize p.2 ≤ foldr (uncurry (fun (_ : string) x acc => (vsize x + acc)%nat)) 0%nat l)%nat.
Proof.
  induction 1 as [[k y] l|[k y] [k' z] l _ IH]; cbn [foldr uncurry fst snd] in *; lia.
Qed.

Lemma vsize_prop (o : gmap string value) k x :
  o !! k = Some x → (vsize x < vsize (VObj o))%nat.
Proof.
  intros H. simpl. rewrite map_fold_foldr.
  apply elem_of_map_to_list in H.
  apply foldr_vsize_pair in H. simpl in H. lia.
Qed.

Lemma value_ind' (P : value → Prop) :
  P VUndefined → P VNull → (∀ b, P (VBool b)) → (∀ n, P (VNum n)) →
  (∀ s, P (VStr s)) →
  (∀ l, Forall P l → P (VArr l)) →
  (∀ o : gmap string value, map_Forall (λ _, P) o → P (VObj o)) →
  (∀ b, P (VStream b)) → (∀ n, P (VNative n)) →
  ∀ v, P v.
Proof.
  intros Hu Hn Hb Hz Hs Ha Ho Hst Hna v.
  remember (vsize v) as n eqn:Hn'. revert v Hn'.
  induction (lt_wf n) as [n _ IH]. intros v ->.
  destruct v; auto.
  - apply Ha. apply Forall_forall. intros x Hx.
    apply (IH (vsize x)); [by apply vsize_elem | done].
  - apply Ho. intros k x Hx.
    apply (IH (vsize x)); [by eapply vsize_prop | done].
Qed.

(** ** Strings and numerals are read back from their text *)

Lemma parse_escape c T str rest :
  parse_string_body T = Some (str, rest) →
  parse_string_body (escape c +:+ T) = Some (String c str, rest).
Proof.
  intros H.
  destruct c as [[] [] [] [] [] [] [] []];
    cbv -[parse_string_body]; simpl; rewrite H; reflexivity.
Qed.

Lemma parse_quote_body s rest :
  parse_string_body (quote_body s +:+ String dquote rest) = Some (s, rest).
Proof.
  induction s as [|c s IH]; [reflexivity|].
  simpl quote_body. rewrite strapp_assoc. by apply parse_escape.
Qed.

Lemma to_uint_head p u : Pos.to_uint p ≠ Decimal.D0 u.
Proof.
  intros H.
  pose proof (DecimalN.Unsigned.to_of (Pos.to_uint p)) as Hn.
  unfold N.of_uint in Hn. rewrite DecimalPos.Unsigned.of_to in Hn.
  simpl in Hn. rewrite H in Hn. unfold Decimal.unorm in Hn.
  rewrite nzhead_D0 in Hn.
  destruct (Decimal.nzhead u) eqn:E; try discriminate.
  - injection Hn as ->. by apply (DecimalPos.Unsigned.to_uint_nonzero p).
  - by apply nzhead_nonzero in E.
Qed.

Lemma delim_no_digit rest : delim rest → no_digit rest.
Proof. destruct rest as [|c r]; [done|]. intros [->|[->| ->]]; reflexivity. Qed.

Lemma delim_more_number rest : delim rest → more_number rest = false.
Proof. destruct rest as [|c r]; [done|]. intros [->|[->| ->]]; reflexivity. Qed.

Lemma parse_digits_uint d rest :
  no_digit rest → parse_digits (NilEmpty.string_of_uint d +:+ rest) = (d, rest).
Proof.
  intros H. induction d; simpl NilEmpty.string_of_uint;
    rewrite ?strapp_cons; [|simpl; by rewrite IHd ..].
  destruct rest as [|c r]; [done|]. simpl in *. by rewrite H.
Qed.

Lemma parse_unsigned_pos p rest :
  delim rest →
  parse_unsigned (NilEmpty.string_of_uint (Pos.to_uint p) +:+ rest) = Some (Z.pos p, rest).
Proof.
  intros H. unfold parse_unsigned.
  rewrite parse_digits_uint by by apply delim_no_digit.
  rewrite delim_more_number by done.
  assert (Z.of_uint (Pos.to_uint p) = Z.pos p) as Hz.
  { unfold Z.of_uint. by rewrite DecimalPos.Unsigned.of_to. }
  destruct (Pos.to_uint p) eqn:E; try (by rewrite Hz).
  - by apply DecimalPos.Unsigned.to_uint_nonnil in E.
  - by apply to_uint_head in E.
Qed.

Lemma string_of_uint_head u :
  u ≠ Decimal.Nil →
  ∃ c t, NilEmpty.string_of_uint u = String c t ∧ numhead c = true ∧ c ≠ "-"%char.
Proof. destruct u; [done|..]; intros _; simpl; eauto. Qed.

Lemma Number_toString_head n :
  ∃ c t, Number_toString n = String c t ∧ numhead c = true.
Proof.
  destruct n as [|p|p]; unfold Number_toString; simpl.
  - eauto.
  - destruct (Pos.to_uint p) eqn:E';
      [by apply DecimalPos.Unsigned.to_uint_nonnil in E' | simpl; eauto ..].
  - eauto.
Qed.

Lemma parse_number_toString n rest :
  delim rest → parse_number (Number_toString n +:+ rest) = Some (n, rest).
Proof.
  intros H. destruct n as [|p|p]; unfold Number_toString; simpl Z.to_int;
    unfold NilZero.string_of_int, NilZero.string_of_uint.
  - change ("0" +:+ rest) with (String "0" rest). unfold parse_number.
    change (N_of_ascii "0" =? 45)%N with false. cbv iota.
    unfold parse_unsigned.
    change (String "0" rest) with (NilEmpty.string_of_uint (Decimal.D0 Decimal.Nil) +:+ rest).
    rewrite parse_digits_uint by by apply delim_no_digit.
    by rewrite delim_more_number.
  - assert (NilEmpty.string_of_uint (Pos.to_uint p) =
            match Pos.to_uint p with
            | Decimal.Nil => "0"
            | _ => NilEmpty.string_of_uint (Pos.to_uint p)
            end) as <-.
    { destruct (Pos.to_uint p) eqn:E; try done.
      by apply DecimalPos.Unsigned.to_uint_nonnil in E. }
    destruct (string_of_uint_head (Pos.to_uint p)) as (c & t & E & Hc & Hm);
      [apply DecimalPos.Unsigned.to_uint_nonnil|].
    unfold parse_number. rewrite E, strapp_cons.
    assert ((N_of_ascii c =? 45)%N = false) as ->.
    { apply N.eqb_neq. intros Hn. apply Hm.
      rewrite <- (ascii_N_embedding c), Hn. reflexivity. }
    rewrite <- strapp_cons, <- E. by apply parse_unsigned_pos.
  - assert (NilEmpty.string_of_uint (Pos.to_uint p) =
            match Pos.to_uint p with
            | Decimal.Nil => "0"
            | _ => NilEmpty.string_of_uint (Pos.to_uint p)
            end) as <-.
    { destruct (Pos.to_uint p) eqn:E; try done.
      by apply DecimalPos.Unsigned.to_uint_nonnil in E. }
    rewrite strapp_cons. unfold parse_number.
    change (N_of_ascii "-" =? 45)%N with true. cbv iota.
    by rewrite parse_unsigned_pos.
Qed.

Lemma skip_ws_nonws c s : is_ws c = false → skip_ws (String c s) = String c s.
Proof. intros H. simpl. by rewrite H. Qed.

(** ** Values are read back from their text *)

Lemma parse_value_string fuel s :
  parse_value (S fuel) (String dquote s) =
  match parse_string_body s with
  | Some (str, rest) => Some (VStr str, rest)
  | None => None
  end.
Proof. reflexivity. Qed.

Lemma parse_value_array fuel s :
  parse_value (S fuel) (String "[" s) =
  match skip_ws s with
  | EmptyString => None
  | String c2 s2 =>
      if (N_of_ascii c2 =? 93)%N then Some (VArr [], s2)
      else match parse_elements fuel s with
           | Some (l, rest) => Some (VArr l, rest)
           | None => None
           end
  end.
Proof. reflexivity. Qed.

Lemma parse_value_object fuel s :
  parse_value (S fuel) (String "{" s) =
  match skip_ws s with
  | EmptyString => None
  | String c2 s2 =>
      if (N_of_ascii c2 =? 125)%N then Some (VObj ∅, s2)
      else match parse_members fuel s with
           | Some (l, rest) => Some (VObj (object_of l), rest)
           | None => None
           end
  end.
Proof. reflexivity. Qed.

Lemma parse_value_number fuel c s :
  numhead c = true →
  parse_value (S fuel) (String c s) =
  match parse_number (String c s) with
  | Some (z, rest) => Some (VNum z, rest)
  | None => None
  end.
Proof.
  destruct c as [[] [] [] [] [] [] [] []]; intros H; try discriminate H; reflexivity.
Qed.

Lemma parse_elements_S fuel s :
  parse_elements (S fuel) s =
  match parse_value fuel s with
  | None => None
  | Some (v, rest) =>
      match skip_ws rest with
      | EmptyString => None
      | String c r =>
          if (N_of_ascii c =? 44)%N then
            match parse_elements fuel r with
            | Some (vs, rest') => Some (v :: vs, rest')
            | None => None
            end
          else if (N_of_ascii c =? 93)%N then Some ([v], r)
          else None
      end
  end.
Proof. reflexivity. Qed.

Lemma parse_members_quote fuel k s :
  parse_members (S fuel) (String dquote (quote_body k +:+ String dquote (String ":" s))) =
  match parse_value fuel s with
  | None => None
  | Some (v, s4) =>
      match skip_ws s4 with
      | EmptyString => None
      | String c3 s5 =>
          if (N_of_ascii c3 =? 44)%N then
            match parse_members fuel s5 with
            | Some (ms, rest') => Some ((k, v) :: ms, rest')
            | None => None
            end
          else if (N_of_ascii c3 =? 125)%N then Some ([(k, v)], s5)
          else None
      end
  end.
Proof.
  change (parse_members (S fuel) (String dquote ?t)) with
    (match parse_string_body t with
     | None => None
     | Some (k, s2) =>
         match skip_ws s2 with
         | EmptyString => None
         | String c2 s3 =>
             if negb (N_of_ascii c2 =? 58)%N then None
             else
               match parse_value fuel s3 with
               | None => None
               | Some (v, s4) =>
                   match skip_ws s4 with
                   | EmptyString => None
                   | String c3 s5 =>
                       if (N_of_ascii c3 =? 44)%N then
                         match parse_members fuel s5 with
                         | Some (ms, rest') => Some ((k, v) :: ms, rest')
                         | None => None
                         end
                       else if (N_of_ascii c3 =? 125)%N then Some ([(k, v)], s5)
                       else None
                   end
               end
         end
     end).
  rewrite parse_quote_body. reflexivity.
Qed.

Lemma mtext_app k x R :
  mtext (k, x) +:+ R =
  String dquote (quote_body k +:+ String dquote (String ":" (jtext x +:+ R))).
Proof.
  unfold mtext, member_text, QuoteJSONString. cbn [fst snd].
  rewrite !strapp_cons, !strapp_assoc. reflexivity.
Qed.

Lemma join_comma_cons x y l :
  join_comma (x :: y :: l) = x +:+ String "," (join_comma (y :: l)).
Proof. reflexivity. Qed.

Lemma parse_elements_join l :
  l ≠ [] → Forall reads_back l →
  ∀ fuel rest,
    (String.length (join_comma (map jtext l)) + 1 < fuel)%nat → delim rest →
    parse_elements fuel (join_comma (map jtext l) +:+ String "]" rest) = Some (l, rest).
Proof.
  induction l as [|x l IH]; [done|]. intros _ HF fuel rest Hlen Hd.
  apply Forall_cons in HF as [(_ & _ & Hx) HF].
  destruct fuel as [|fuel]; [lia|]. rewrite parse_elements_S.
  destruct l as [|y l].
  - cbn [map join_comma] in *.
    rewrite Hx; [reflexivity | lia | simpl; auto].
  - cbn [map] in *. rewrite join_comma_cons in *.
    rewrite strlen_app in Hlen. cbn [String.length] in Hlen.
    rewrite strapp_assoc, strapp_cons.
    rewrite Hx; [| lia | simpl; auto].
    cbn [skip_ws]. change (is_ws ",") with false. cbv iota.
    change (N_of_ascii "," =? 44)%N with true. cbv iota.
    rewrite IH; [reflexivity | done | done | lia | done].
Qed.

Lemma parse_members_join kvs :
  kvs ≠ [] → Forall (λ kv, reads_back kv.2) kvs →
  ∀ fuel rest,
    (String.length (join_comma (map mtext kvs)) + 1 < fuel)%nat → delim rest →
    parse_members fuel (join_comma (map mtext kvs) +:+ String "}" rest) = Some (kvs, rest).
Proof.
  induction kvs as [|[k x] kvs IH]; [done|]. intros _ HF fuel rest Hlen Hd.
  apply Forall_cons in HF as [(_ & _ & Hx) HF]. cbn [snd] in Hx.
  destruct fuel as [|fuel]; [lia|].
  assert (String.length (jtext x) + 3 ≤ String.length (mtext (k, x)))%nat as Hm.
  { unfold mtext, member_text, QuoteJSONString. cbn [fst snd].
    rewrite strapp_cons. cbn [String.length].
    rewrite !strlen_app. cbn [String.length]. lia. }
  destruct kvs as [|kv kvs].
  - cbn [map join_comma] in *. rewrite mtext_app, parse_members_quote.
    rewrite Hx; [reflexivity | lia | simpl; auto].
  - cbn [map] in *. rewrite join_comma_cons in *.
    rewrite strlen_app in Hlen. cbn [String.length] in Hlen.
    rewrite strapp_assoc, strapp_cons, mtext_app, parse_members_quote.
    rewrite Hx; [| lia | simpl; auto].
    cbn [skip_ws]. change (is_ws ",") with false. cbv iota.
    change (N_of_ascii "," =? 44)%N with true. cbv iota.
    rewrite IH; [reflexivity | done | done | lia | done].
Qed.

Lemma object_of_from (l : list (string * value)) (m0 : gmap string value) :
  NoDup l.*1 →
  foldl (fun m kv => <[kv.1 := kv.2]> m) m0 l = list_to_map l ∪ m0.
Proof.
  revert m0. induction l as [|[k v] l IH]; intros m0 Hnd.
  - simpl. by rewrite (left_id_L ∅ (∪)).
  - apply NoDup_cons in Hnd as [Hk Hnd]. cbn [foldl fst snd list_to_map foldr uncurry].
    rewrite IH by done.
    rewrite <- insert_union_l, <- insert_union_r; [done|].
    by apply not_elem_of_list_to_map.
Qed.

Lemma object_of_map_to_list (o : gmap string value) : object_of (map_to_list o) = o.
Proof.
  unfold object_of. rewrite object_of_from by apply NoDup_fst_map_to_list.
  by rewrite list_to_map_to_list, (right_id_L ∅ (∪)).
Qed.

Lemma serializable_props (o : gmap string value) :
  serializable (VObj o) = true →
  Forall (λ kv, serializable kv.2 = true) (map_to_list o).
Proof.
  cbn [serializable]. rewrite map_fold_foldr.
  induction (map_to_list o) as [|[k x] l IH]; [done|].
  cbn [foldr uncurry fst snd]. intros [? ?]%andb_true_iff. constructor; auto.
Qed.

Lemma members_text (l : list (string * value)) :
  Forall (λ kv, is_Some (JSON_stringify kv.2)) l →
  foldr (uncurry (fun k x acc =>
                    match JSON_stringify x with
                    | Some t => member_text k t :: acc
                    | None => acc
                    end)) [] l = map mtext l.
Proof.
  induction 1 as [|[k x] l [t Ht] _ IH]; [done|].
  cbn [foldr uncurry map fst snd] in *. rewrite IH.
  unfold mtext, jtext. cbn [fst snd]. by rewrite Ht.
Qed.

Lemma reads_back_all v : serializable v = true → reads_back v.
Proof.
  induction v as [| |b|n|s|l IH|o IH| |] using value_ind'; intros Hs; try discriminate Hs.
  - split; [by eexists|]. split; [by exists "n"%char, "ull"|].
    intros [|fuel] rest Hl _; [cbn in Hl; lia|reflexivity].
  - split; [by eexists|]. split; [destruct b; by eexists _, _|].
    intros [|fuel] rest Hl _; [cbn in Hl; lia|]. by destruct b.
  - destruct (Number_toString_head n) as (c & t & E & Hc).
    split; [by eexists|]. unfold jtext. cbn [JSON_stringify default from_option id]. split.
    + exists c, t. split; [done|].
      clear -Hc. by destruct c as [[] [] [] [] [] [] [] []].
    + intros [|fuel] rest Hl Hd; [lia|].
      pose proof (parse_number_toString n rest Hd) as Hp.
      rewrite E, strapp_cons in *. rewrite parse_value_number by done.
      by rewrite Hp.
  - split; [by eexists|]. unfold jtext. cbn [JSON_stringify default from_option id].
    unfold QuoteJSONString. split.
    + by eexists _, _.
    + intros [|fuel] rest Hl Hd; [lia|].
      rewrite strapp_cons, parse_value_string, strapp_assoc, strapp_cons.
      by rewrite parse_quote_body.
  - cbn [serializable] in Hs. rewrite forallb_forall in Hs.
    assert (Forall reads_back l) as HF.
    { apply Forall_forall. intros x Hx. eapply Forall_forall in IH; [|done].
      apply IH. apply Hs. by apply list_elem_of_In. }
    split; [by eexists|]. unfold jtext. cbn [JSON_stringify default from_option id]. fold jtext. split.
    + by eexists _, _.
    + intros [|fuel] rest Hl Hd; [lia|].
      rewrite !strapp_cons in *. change (EmptyString +:+ ?s) with s in *.
      cbn [String.length] in Hl. rewrite !strlen_app in Hl. cbn [String.length] in Hl.
      rewrite parse_value_array, strapp_assoc, strapp_cons.
      change (EmptyString +:+ rest) with rest.
      destruct l as [|x l]; [reflexivity|].
      assert (∃ c t, join_comma (map jtext (x :: l)) = String c t ∧ is_ws c = false ∧
                     (N_of_ascii c =? 93)%N = false) as (c & t & E & Hw & Hc).
      { apply Forall_cons in HF as [(_ & (c & t & E & ? & ? & _) & _) _].
        destruct l; cbn [map]; [cbn [join_comma]|rewrite join_comma_cons];
          rewrite E, ?strapp_cons; eauto. }
      rewrite parse_elements_join by (done || lia).
      rewrite E, strapp_cons, skip_ws_nonws by done. by rewrite Hc.
  - pose proof (serializable_props o Hs) as Hs'.
    assert (Forall (λ kv, reads_back kv.2) (map_to_list o)) as HF.
    { apply Forall_forall. intros [k x] Hx. eapply Forall_forall in Hs'; [|done].
      apply elem_of_map_to_list in Hx. by apply (IH k x). }
    split; [by eexists|]. unfold jtext. cbn [JSON_stringify default from_option id]. fold jtext.
    rewrite map_fold_foldr, members_text
      by (eapply Forall_impl; [exact HF|]; by intros ? (? & _)).
    split.
    + by eexists _, _.
    + intros [|fuel] rest Hl Hd; [lia|].
      rewrite !strapp_cons in *. change (EmptyString +:+ ?s) with s in *.
      cbn [String.length] in Hl. rewrite !strlen_app in Hl. cbn [String.length] in Hl.
      rewrite parse_value_object, strapp_assoc, strapp_cons.
      change (EmptyString +:+ rest) with rest.
      destruct (map_to_list o) as [|[k x] kvs] eqn:Eo.
      { apply map_to_list_empty_iff in Eo as ->. reflexivity. }
      rewrite parse_members_join by (done || lia).
      rewrite <- Eo, object_of_map_to_list.
      rewrite Eo. destruct kvs; cbn [map]; [cbn [join_comma]|rewrite join_comma_cons];
        rewrite ?strapp_assoc, mtext_app; reflexivity.
Qed.

Theorem JSON_parse_stringify v :
  serializable v = true →
  ∃ t, JSON_stringify v = Some t ∧ JSON_parse t = inr v.
Proof.
  intros Hs. destruct (reads_back_all v Hs) as ([t Ht] & _ & Hp).
  exists t. split; [done|]. unfold JSON_parse.
  specialize (Hp (S (String.length t)) EmptyString). unfold jtext in Hp. rewrite Ht in Hp.
  cbn [default from_option id] in Hp. rewrite strapp_nil_r in Hp. rewrite Hp; [reflexivity|lia|done].
Qed.

Lemma serializable_obj (o : gmap string value) :
  serializable (VObj o) = true ↔ map_Forall (λ _ x, serializable x = true) o.
Proof.
  cbn [serializable]. rewrite map_fold_foldr, map_Forall_to_list.
  induction (map_to_list o) as [|[k x] l IH]; [done|].
  cbn [foldr uncurry fst snd]. rewrite andb_true_iff, Forall_cons, IH. done.
Qed.

(** ** The HTTP transport *)

Lemma Response_ok_2xx r : Response_ok r = true ↔ 200 ≤ status r ≤ 299.
Proof. unfold Response_ok. rewrite andb_true_iff, !Z.leb_le. done. Qed.

Lemma send_exchange endpoint request w :
  run (send endpoint request) w =
  match exchange endpoint request w with
  | inl e => (inl e, exchanged endpoint request w)
  | inr response =>
      let w1 := exchanged endpoint request w in
      if negb (Response_ok response) then
        (inl (Error ("Fetch failed with status " +:+ Number_toString (status response))), w1)
      else if truthy (headers_get response WEB5_RESPONSE_HEADER) then
        let h := default EmptyString (headers_get response WEB5_RESPONSE_HEADER) in
        (base64UrlToObject w h ≫=
           (fun decoded => reply_with_body decoded (Response_body response)),
         traced (Encoder_base64UrlToObject h) w1)
      else if truthy (headers_get response DWN_RESPONSE_HEADER) then
        let h := default EmptyString (headers_get response DWN_RESPONSE_HEADER) in
        (utils_parseJson w h ≫= (fun responseJson =>
           result_reply responseJson ≫=
             (fun reply => reply_with_body reply (Response_body response))),
         traced (parseJson h) w1)
      else
        let '(responseJson, w2) := read_json w1 response in
        (responseJson ≫= result_reply, traced (Response_json response) w2)
  end.
Proof.
  unfold send, exchange, exchanged, traced, perform, decodeMessage, encodeMessage.
  cbn -[JSON_stringify dwnRequest_of fetch_init Response_ok Number_toString truthy
        String.append reply_with_body result_reply read_json].
  rewrite <- !(assoc_L (++)). cbn [app].
  destruct (network w endpoint _) as [e|response]; [reflexivity|].
  cbn [settle bind].
  destruct (Response_ok response); cbn [negb]; [|reflexivity].
  destruct (truthy (headers_get response WEB5_RESPONSE_HEADER)).
  { cbn -[reply_with_body]. rewrite <- !(assoc_L (++)). cbn [app].
    destruct (base64UrlToObject w _) as [e|d]; [reflexivity|].
    cbn -[reply_with_body]. by destruct (reply_with_body d _). }
  destruct (truthy (headers_get response DWN_RESPONSE_HEADER)).
  { cbn -[reply_with_body result_reply]. rewrite <- !(assoc_L (++)). cbn [app].
    destruct (utils_parseJson w _) as [e|d]; [reflexivity|].
    cbn -[reply_with_body result_reply].
    destruct (result_reply d) as [e|r]; [reflexivity|].
    cbn -[reply_with_body]. by destruct (reply_with_body r _). }
  cbn -[result_reply read_json].
  unfold read_json.
  cbn -[result_reply].
  destruct (body response) as [s|].
  - destruct (decide _) as [Hd|Hd].
    + cbn. rewrite <- !(assoc_L (++)). reflexivity.
    + cbn -[result_reply]. rewrite <- !(assoc_L (++)). cbn [app].
      destruct (body_json w _) as [e|j]; [reflexivity|].
      cbn -[result_reply]. by destruct (result_reply j).
  - cbn. rewrite <- !(assoc_L (++)). reflexivity.
Qed.

(** C7.  [createJsonRpcErrorResponse] called without [data] (that is, with
    [undefined]) returns a response whose [error] member has no [data] key at
    all; called with any other [data], [undefined] apart, its [error] member
    has the key [data] with exactly that value.  The members [code] and
    [message] are the arguments. *)
Theorem createJsonRpcErrorResponse_data id code message data :
  ∃ error : gmap string value,
    own (createJsonRpcErrorResponse id code message data) "error" = Some (VObj error) ∧
    error !! "code" = Some code ∧ error !! "message" = Some message ∧
    error !! "data" = match data with VUndefined => None | _ => Some data end.
Proof.
  unfold createJsonRpcErrorResponse, object, object_of, own. cbn [foldl fst snd].
  eexists. split; [by simplify_map_eq|].
  destruct data; by simplify_map_eq.
Qed.

Lemma trace_read_json w r : trace (read_json w r).2 = trace w.
Proof. unfold read_json. destruct (body r); [|done]. by destruct (decide _). Qed.

(** C5.  Whatever the world and the request, the second call of [send] is the
    [fetch] of the endpoint, whose one request header carries the text of a
    JSON-RPC request.  That request has the drawn identifier as its [id] and
    [dwn.processMessage] as its [method]; its [params] is one flat object
    whose [author] and [target] are those of the request, also when the
    message has members of these names.  When the message is an object,
    [params] is that object with these two members set: every other member of
    the message is in [params] with its value, and [params] has no member
    besides.  A message that is [undefined] or [null] contributes nothing. *)
Theorem send_request_envelope w endpoint request :
  let envelope := dwnRequest_of (uuids w (issued w)) request in
  let init := fetch_init (JSON_stringify envelope) request in
  (∃ later, trace (run (send endpoint request) w).2
            = (trace w ++ uuidv4 :: fetch endpoint init :: later)%list) ∧
  (∃ text, JSON_stringify envelope = Some text ∧
           req_headers init = [(DWN_MESSAGE_HEADER, text)]) ∧
  own envelope "jsonrpc" = Some (VStr "2.0") ∧
  own envelope "id" = Some (VStr (uuids w (issued w))) ∧
  own envelope "method" = Some (VStr "dwn.processMessage") ∧
  ∃ params : gmap string value,
    own envelope "params" = Some (VObj params) ∧
    params !! "author" = Some (author request) ∧
    params !! "target" = Some (target request) ∧
    (∀ m : gmap string value, message request = VObj m →
       params = <["target" := target request]> (<["author" := author request]> m) ∧
       ∀ k, k ≠ "author" → k ≠ "target" → params !! k = m !! k) ∧
    (message request = VUndefined ∨ message request = VNull →
       params = <["target" := target request]> {["author" := author request]}).
Proof.
  intros envelope init. split; [|split; [|split; [|split; [|split]]]].
  - rewrite send_exchange. fold envelope. fold init.
    unfold exchanged. fold envelope. fold init.
    destruct (exchange _ _ _) as [e|response]; [by exists []|].
    cbv zeta. destruct (negb _); [by exists []|].
    destruct (truthy _); [eexists; cbn; by rewrite <- (assoc_L (++))|].
    destruct (truthy _); [eexists; cbn; by rewrite <- (assoc_L (++))|].
    destruct (read_json _ _) as [j w2] eqn:E.
    eexists. cbn. replace (trace w2) with (trace (read_json
      (with_trace (trace w ++ [uuidv4; fetch endpoint init])
         (with_issued (S (issued w)) w)) response).2) by by rewrite E.
    rewrite trace_read_json. cbn. by rewrite <- (assoc_L (++)).
  - by eexists.
  - unfold envelope, dwnRequest_of, createJsonRpcRequest, object, object_of, own.
    cbn [foldl fst snd]. by simplify_map_eq.
  - unfold envelope, dwnRequest_of, createJsonRpcRequest, object, object_of, own.
    cbn [foldl fst snd]. by simplify_map_eq.
  - unfold envelope, dwnRequest_of, createJsonRpcRequest, object, object_of, own.
    cbn [foldl fst snd]. by simplify_map_eq.
  - eexists. split; [|split; [|split; [|split]]].
    + unfold envelope, dwnRequest_of, createJsonRpcRequest, object, object_of, own.
      cbn [foldl fst snd]. by simplify_map_eq.
    + by simplify_map_eq.
    + by simplify_map_eq.
    + intros m ->. cbn [spread]. split; [done|]. intros k ? ?.
      by rewrite !lookup_insert_ne by done.
    + intros [-> | ->]; cbn [spread]; by rewrite insert_empty.
Qed.

(** C6.  When the exchange answers with a status outside 200..299, [send]
    throws [Error], its message naming the status; the calls it has made are
    the identifier and the one [fetch], nothing was decoded, and no body
    stream was read. *)
Theorem send_fails_on_non_2xx w endpoint request response :
  exchange endpoint request w = inr response →
  ¬ (200 ≤ status response ≤ 299) →
  let init := fetch_init (JSON_stringify (dwnRequest_of (uuids w (issued w)) request)) request in
  (run (send endpoint request) w).1
    = inl (Error ("Fetch failed with status " +:+ Number_toString (status response))) ∧
  trace (run (send endpoint request) w).2 = (trace w ++ [uuidv4; fetch endpoint init])%list ∧
  disturbed (run (send endpoint request) w).2 = disturbed w.
Proof.
  intros Hx Hs init. rewrite send_exchange, Hx. cbv zeta.
  destruct (Response_ok response) eqn:E; [by apply Response_ok_2xx in E|].
  done.
Qed.

Lemma reply_with_body_object (o : gmap string value) b :
  ∃ out : gmap string value,
    reply_with_body (VObj o) b = inr (VObj out) ∧
    dom out = {["entries"; "message"; "record"; "status"]} ∧
    out !! "entries" = Some (match o !! "entries" with
                             | Some VUndefined | None => VNull
                             | Some entries => entries
                             end) ∧
    out !! "message" = Some (default VUndefined (o !! "message")) ∧
    out !! "status" = Some (default VUndefined (o !! "status")) ∧
    out !! "record"
      = Some (VObj (<["data" := b]> (spread (default VUndefined (o !! "record"))))).
Proof.
  unfold reply_with_body. cbn [get mbind result_bind]. eexists. split; [reflexivity|].
  unfold object_of. cbn [foldl fst snd].
  split; [rewrite !dom_insert_L; rewrite dom_empty_L; set_solver|].
  split; [|split; [|split]]; try by simplify_map_eq.
  rewrite lookup_insert_ne, lookup_insert_ne, lookup_insert_ne, lookup_insert_eq by done.
  destruct (o !! "entries") as [[]|]; reflexivity.
Qed.

(** C1, as amended.  On a 2xx response [send] takes the first of three
    branches.  A [WEB5-RESPONSE] header with a non-empty value is decoded by
    [Encoder.base64UrlToObject]; otherwise a [dwn-response] header with a
    non-empty value is decoded by [parseJson] and [result.reply] is taken;
    in both the body is not read, and the reply that is returned has the
    [entries] ([null] when there is none), the [message] and the [status] of
    the decoded object, and its [record], when it is an object, with [data]
    replaced by [response.body]: the body stream, or [null] when the response
    has no body.  Otherwise the body is read, parsed as JSON, and its
    [result.reply] is returned as it is. *)
Theorem send_demultiplexes w endpoint request response :
  exchange endpoint request w = inr response →
  200 ≤ status response ≤ 299 →
  let w1 := exchanged endpoint request w in
  let made (o out : gmap string value) :=
    out !! "entries" = Some (match o !! "entries" with
                             | Some VUndefined | None => VNull
                             | Some entries => entries
                             end) ∧
    out !! "message" = Some (default VUndefined (o !! "message")) ∧
    out !! "status" = Some (default VUndefined (o !! "status")) ∧
    ∀ record : gmap string value,
      o !! "record" = Some (VObj record) →
      out !! "record" = Some (VObj (<["data" := Response_body response]> record)) in
  run (send endpoint request) w =
    match headers_get response WEB5_RESPONSE_HEADER,
          headers_get response DWN_RESPONSE_HEADER with
    | Some (String c h), _ =>
        (base64UrlToObject w (String c h) ≫=
           (fun decoded => reply_with_body decoded (Response_body response)),
         traced (Encoder_base64UrlToObject (String c h)) w1)
    | _, Some (String c h) =>
        (utils_parseJson w (String c h) ≫= (fun envelope =>
           result_reply envelope ≫=
             (fun reply => reply_with_body reply (Response_body response))),
         traced (parseJson (String c h)) w1)
    | _, _ =>
        ((read_json w1 response).1 ≫= result_reply,
         traced (Response_json response) (read_json w1 response).2)
    end
  ∧ (∀ c h (o : gmap string value),
       headers_get response WEB5_RESPONSE_HEADER = Some (String c h) →
       base64UrlToObject w (String c h) = inr (VObj o) →
       ∃ out : gmap string value,
         (run (send endpoint request) w).1 = inr (VObj out) ∧ made o out)
  ∧ (∀ c h (envelope result o : gmap string value),
       truthy (headers_get response WEB5_RESPONSE_HEADER) = false →
       headers_get response DWN_RESPONSE_HEADER = Some (String c h) →
       utils_parseJson w (String c h) = inr (VObj envelope) →
       envelope !! "result" = Some (VObj result) →
       result !! "reply" = Some (VObj o) →
       ∃ out : gmap string value,
         (run (send endpoint request) w).1 = inr (VObj out) ∧ made o out)
  ∧ (∀ s (envelope result : gmap string value),
       truthy (headers_get response WEB5_RESPONSE_HEADER) = false →
       truthy (headers_get response DWN_RESPONSE_HEADER) = false →
       body response = Some s → s ∉ disturbed w →
       body_json w s = inr (VObj envelope) →
       envelope !! "result" = Some (VObj result) →
       (run (send endpoint request) w).1 = inr (default VUndefined (result !! "reply"))).
Proof.
  intros Hx Hs w1 made.
  assert (∀ o, ∃ out : gmap string value,
            reply_with_body (VObj o) (Response_body response) = inr (VObj out) ∧
            made o out) as Hmade.
  { intros o. destruct (reply_with_body_object o (Response_body response))
      as (out & Hout & _ & He & Hm & Hst & Hr).
    exists out. split; [done|]. split; [done|]. split; [done|]. split; [done|].
    intros record Ho. by rewrite Hr, Ho. }
  rewrite send_exchange, Hx. cbv zeta. fold w1.
  apply Response_ok_2xx in Hs as ->. cbn [negb].
  split; [|split; [|split]].
  - destruct (headers_get response WEB5_RESPONSE_HEADER) as [[|c h]|];
      destruct (headers_get response DWN_RESPONSE_HEADER) as [[|c' h']|];
      cbn [truthy default from_option id]; try reflexivity;
      by destruct (read_json w1 response).
  - intros c h o -> Hd. cbn [truthy default from_option id fst]. rewrite Hd.
    apply Hmade.
  - intros c h envelope result o -> -> Hd He Hr.
    cbn [truthy default from_option id fst]. rewrite Hd.
    unfold result_reply. cbn [get mbind result_bind]. rewrite He.
    cbn [get mbind result_bind default from_option id]. rewrite Hr. apply Hmade.
  - intros s envelope result -> -> Hb Hd Hj He.
    unfold read_json. rewrite Hb. rewrite decide_False by done. cbn [fst].
    unfold w1. cbn [body_json exchanged with_trace with_issued]. rewrite Hj.
    unfold result_reply. cbn [get mbind result_bind]. rewrite He.
    cbn [get mbind result_bind default from_option id]. reflexivity.
Qed.

(** C10, as amended.  On a 2xx response whose [WEB5-RESPONSE] header, or
    without one whose [dwn-response] header, has a non-empty value and
    decodes to an object [o], [send] returns a reply whose [record] member is
    an object with [response.body] as its [data]: the body stream, or [null]
    when the response has no body.  When [o] has a [record] that is an
    object, the other members are those of that record; when [o] has no
    [record], the object has no other member. *)
Theorem send_record_carries_body w endpoint request response (o : gmap string value) :
  exchange endpoint request w = inr response →
  200 ≤ status response ≤ 299 →
  (∃ c h, headers_get response WEB5_RESPONSE_HEADER = Some (String c h) ∧
          base64UrlToObject w (String c h) = inr (VObj o)) ∨
  (truthy (headers_get response WEB5_RESPONSE_HEADER) = false ∧
   ∃ c h (envelope result : gmap string value),
     headers_get response DWN_RESPONSE_HEADER = Some (String c h) ∧
     utils_parseJson w (String c h) = inr (VObj envelope) ∧
     envelope !! "result" = Some (VObj result) ∧
     result !! "reply" = Some (VObj o)) →
  ∃ out record : gmap string value,
    (run (send endpoint request) w).1 = inr (VObj out) ∧
    out !! "record" = Some (VObj record) ∧
    record = <["data" := Response_body response]> (spread (default VUndefined (o !! "record"))) ∧
    record !! "data" = Some (Response_body response) ∧
    (∀ s, body response = Some s → record !! "data" = Some (VStream s)) ∧
    (body response = None → record !! "data" = Some VNull) ∧
    (∀ r : gmap string value,
       o !! "record" = Some (VObj r) → record = <["data" := Response_body response]> r) ∧
    (o !! "record" = None → record = {["data" := Response_body response]}).
Proof.
  intros Hx Hs Hh.
  destruct (reply_with_body_object o (Response_body response))
    as (out & Hout & _ & _ & _ & _ & Hrec).
  exists out, (<["data" := Response_body response]> (spread (default VUndefined (o !! "record")))).
  split; [|split; [done|split; [done|split; [by rewrite lookup_insert_eq|]]]].
  - rewrite send_exchange, Hx. cbv zeta.
    apply Response_ok_2xx in Hs as ->. cbn [negb].
    destruct Hh as [(c & h & -> & Hd)|(Hf & c & h & envelope & result & Hh & Hd & He & Hr)].
    + cbn [truthy default from_option id fst]. rewrite Hd. exact Hout.
    + rewrite Hf, Hh. cbn [truthy default from_option id fst]. rewrite Hd.
      unfold result_reply. cbn [get mbind result_bind]. rewrite He.
      cbn [get mbind result_bind default from_option id]. rewrite Hr. exact Hout.
  - split; [|split; [|split]].
    + intros s Hb. rewrite lookup_insert_eq. unfold Response_body. by rewrite Hb.
    + intros Hb. rewrite lookup_insert_eq. unfold Response_body. by rewrite Hb.
    + intros r ->. reflexivity.
    + intros ->. cbn [default from_option spread]. by rewrite insert_empty.
Qed.

Lemma serializable_request id method params :
  serializable id = true → serializable method = true → serializable params = true →
  serializable (createJsonRpcRequest id method params) = true.
Proof.
  intros Hi Hm Hp. unfold createJsonRpcRequest, object, object_of. cbn [foldl fst snd].
  apply serializable_obj.
  repeat (apply map_Forall_insert_2; [done|]). apply map_Forall_empty.
Qed.

(** C8.  In a world whose [parseJson] is that of the specification, encoding
    the request built from a serializable [id], [method] and [params], and
    decoding the text, yields the request again.  Objects being finite maps,
    equality of values is deep equality. *)
Theorem envelope_round_trip w id method params :
  (∀ text, utils_parseJson w text = parseJson_spec text) →
  serializable id = true → serializable method = true → serializable params = true →
  (run (encodeMessage (createJsonRpcRequest id method params) ≫=
          (fun encoded => decodeMessage (text_of encoded))) w).1
  = inr (createJsonRpcRequest id method params).
Proof.
  intros Hw Hi Hm Hp.
  destruct (JSON_parse_stringify _ (serializable_request id method params Hi Hm Hp))
    as (t & Ht & Hpt).
  unfold encodeMessage, decodeMessage, perform.
  cbn -[JSON_stringify createJsonRpcRequest]. rewrite Ht.
  cbn -[JSON_stringify createJsonRpcRequest].
  rewrite Hw. unfold parseJson_spec. by rewrite Hpt.
Qed.

(** ** The theorems at work on the example worlds *)

Lemma send_fails_on_non_2xx_witness :
  let w := example_world response_500 example_envelope_text in
  exchange example_endpoint example_request w = inr response_500 ∧
  ¬ (200 ≤ status response_500 ≤ 299) ∧
  (run (send example_endpoint example_request) w).1
    = inl (Error "Fetch failed with status 500").
Proof.
  intros w.
  assert (exchange example_endpoint example_request w = inr response_500) as H1
    by reflexivity.
  assert (¬ (200 ≤ status response_500 ≤ 299)) as H2 by (simpl; lia).
  split; [exact H1|]. split; [exact H2|].
  exact (proj1 (send_fails_on_non_2xx w _ _ _ H1 H2)).
Defined.

Lemma send_request_envelope_witness :
  let w := example_world response_500 example_envelope_text in
  let m := object_of [("recordId", VStr "r1"); ("author", VStr "did:example:mallory")] in
  message example_request = VObj m ∧
  ∃ params : gmap string value,
    own (dwnRequest_of "uuid-0" example_request) "params" = Some (VObj params) ∧
    params = object_of [("recordId", VStr "r1");
                        ("author", VStr "did:example:alice");
                        ("target", VStr "did:example:bob")] ∧
    params !! "recordId" = m !! "recordId".
Proof.
  intros w m.
  assert (message example_request = VObj m) as H1 by reflexivity.
  split; [exact H1|].
  destruct (send_request_envelope w example_endpoint example_request)
    as (_ & _ & _ & _ & _ & params & Hown & _ & _ & Hm & _).
  destruct (Hm m H1) as [Hp Hk].
  exists params. split; [exact Hown|]. split.
  - rewrite Hp. vm_compute. reflexivity.
  - apply Hk; discriminate.
Defined.

Lemma send_demultiplexes_witness :
  let w := example_world response_legacy_record example_envelope_text in
  let w' := example_world response_current example_envelope_text in
  let envelope := object_of [("jsonrpc", VStr "2.0"); ("id", VStr "uuid-0");
                             ("result", object [("reply", object [("status", example_status)])])] in
  let result := object_of [("reply", object [("status", example_status)])] in
  let o := object_of [("status", example_status)] in
  (exchange example_endpoint example_request w = inr response_legacy_record ∧
   200 ≤ status response_legacy_record ≤ 299 ∧
   (run (send example_endpoint example_request) w).1
     = inr (object [("entries", VNull);
                    ("message", VUndefined);
                    ("record", object [("recordId", VStr "r1"); ("data", VStream 7%nat)]);
                    ("status", example_status)])) ∧
  (exchange example_endpoint example_request w' = inr response_current ∧
   200 ≤ status response_current ≤ 299 ∧
   headers_get response_current WEB5_RESPONSE_HEADER = None ∧
   utils_parseJson w' example_envelope_text = inr (VObj envelope) ∧
   envelope !! "result" = Some (VObj result) ∧
   result !! "reply" = Some (VObj o) ∧
   ∃ out : gmap string value,
     (run (send example_endpoint example_request) w').1 = inr (VObj out) ∧
     out !! "entries" = Some VNull ∧
     out !! "message" = Some VUndefined ∧
     out !! "status" = Some example_status).
Proof.
  intros w w' envelope result o. split.
  - assert (exchange example_endpoint example_request w = inr response_legacy_record) as H1
      by reflexivity.
    assert (200 ≤ status response_legacy_record ≤ 299) as H2 by (simpl; lia).
    split; [exact H1|]. split; [exact H2|].
    rewrite (proj1 (send_demultiplexes w _ _ _ H1 H2)). vm_compute. reflexivity.
  - assert (exchange example_endpoint example_request w' = inr response_current) as H1
      by reflexivity.
    assert (200 ≤ status response_current ≤ 299) as H2 by (simpl; lia).
    assert (headers_get response_current WEB5_RESPONSE_HEADER = None) as H3
      by (vm_compute; reflexivity).
    assert (utils_parseJson w' example_envelope_text = inr (VObj envelope)) as H4
      by (vm_compute; reflexivity).
    assert (envelope !! "result" = Some (VObj result)) as H5 by (vm_compute; reflexivity).
    assert (result !! "reply" = Some (VObj o)) as H6 by (vm_compute; reflexivity).
    split; [exact H1|]. split; [exact H2|]. split; [exact H3|]. split; [exact H4|].
    split; [exact H5|]. split; [exact H6|].
    destruct (send_demultiplexes w' _ _ _ H1 H2) as (_ & _ & Hdwn & _).
    destruct (Hdwn "{"%char (String.substring 1 200 example_envelope_text) envelope result o)
      as (out & Hout & He & Hm & Hst & _).
    + by rewrite H3.
    + vm_compute. reflexivity.
    + exact H4.
    + exact H5.
    + exact H6.
    + exists out. split; [exact Hout|]. split; [exact He|]. split; [exact Hm|exact Hst].
Defined.

Lemma send_record_carries_body_witness :
  let w := example_world response_legacy example_envelope_text in
  let o := object_of [("status", example_status)] in
  let w0 := example_world response_no_content example_envelope_text in
  let o0 := object_of [("record", object [("recordId", VStr "r1"); ("data", VStr "old")]);
                       ("status", example_status)] in
  (exchange example_endpoint example_request w = inr response_legacy ∧
   200 ≤ status response_legacy ≤ 299 ∧
   base64UrlToObject w example_legacy_header = inr (VObj o) ∧
   o !! "record" = None ∧
   ∃ out : gmap string value,
     (run (send example_endpoint example_request) w).1 = inr (VObj out) ∧
     out !! "record" = Some (VObj {["data" := VStream 7%nat]})) ∧
  (exchange example_endpoint example_request w0 = inr response_no_content ∧
   200 ≤ status response_no_content ≤ 299 ∧
   body response_no_content = None ∧
   base64UrlToObject w0 example_legacy_header_record = inr (VObj o0) ∧
   ∃ out : gmap string value,
     (run (send example_endpoint example_request) w0).1 = inr (VObj out) ∧
     out !! "record" = Some (object [("recordId", VStr "r1"); ("data", VNull)])).
Proof.
  intros w o w0 o0. split.
  - assert (exchange example_endpoint example_request w = inr response_legacy) as H1
      by reflexivity.
    assert (200 ≤ status response_legacy ≤ 299) as H2 by (simpl; lia).
    assert (base64UrlToObject w example_legacy_header = inr (VObj o)) as H3
      by (vm_compute; reflexivity).
    assert (o !! "record" = None) as H4 by (vm_compute; reflexivity).
    split; [exact H1|]. split; [exact H2|]. split; [exact H3|]. split; [exact H4|].
    destruct (send_record_carries_body w example_endpoint example_request response_legacy o
                H1 H2) as (out & record & Hout & Hrec & _ & _ & _ & _ & _ & Hnone).
    { left. exists "e"%char, (String.substring 1 100 example_legacy_header).
      split; [reflexivity | exact H3]. }
    exists out. split; [exact Hout|]. rewrite Hrec, (Hnone H4). reflexivity.
  - assert (exchange example_endpoint example_request w0 = inr response_no_content) as H1
      by reflexivity.
    assert (200 ≤ status response_no_content ≤ 299) as H2 by (simpl; lia).
    assert (base64UrlToObject w0 example_legacy_header_record = inr (VObj o0)) as H3
      by (vm_compute; reflexivity).
    split; [exact H1|]. split; [exact H2|]. split; [reflexivity|]. split; [exact H3|].
    destruct (send_record_carries_body w0 example_endpoint example_request
                response_no_content o0 H1 H2)
      as (out & record & Hout & Hrec & _ & _ & _ & _ & Hsome & _).
    { left. exists "e"%char, (String.substring 1 200 example_legacy_header_record).
      split; [reflexivity | exact H3]. }
    exists out. split; [exact Hout|]. rewrite Hrec.
    rewrite (Hsome (object_of [("recordId", VStr "r1"); ("data", VStr "old")]))
      by (vm_compute; reflexivity).
    vm_compute. reflexivity.
Defined.

Lemma envelope_round_trip_witness :
  let w := example_world response_500 example_envelope_text in
  let id := VStr "uuid-0" in
  let method := VStr "dwn.processMessage" in
  let params := object [("a", VArr [VNum (-12); VNull; VBool true; VArr []]);
                        ("b", VStr (String "010" (String dquote (String "001" "x"))));
                        ("c", object [])] in
  (∀ text, utils_parseJson w text = parseJson_spec text) ∧
  serializable id = true ∧ serializable method = true ∧ serializable params = true ∧
  (run (encodeMessage (createJsonRpcRequest id method params) ≫=
          (fun encoded => decodeMessage (text_of encoded))) w).1
  = inr (createJsonRpcRequest id method params).
Proof.
  intros w id method params.
  assert (∀ text, utils_parseJson w text = parseJson_spec text) as H0 by (intros; reflexivity).
  assert (serializable id = true) as H1 by reflexivity.
  assert (serializable method = true) as H2 by reflexivity.
  assert (serializable params = true) as H3 by (vm_compute; reflexivity).
  split; [exact H0|]. split; [exact H1|]. split; [exact H2|]. split; [exact H3|].
  exact (envelope_round_trip w id method params H0 H1 H2 H3).
Defined.

(** ** What the claims about headers, as they are written, miss *)

(** C1 as written fails here: the response carries the [WEB5-RESPONSE] header,
    with an empty value; [send] does not decode it, and returns the reply
    found in the body.  It fails too on a response without body, status 204,
    whose header holds a record: the [data] of the record is replaced by
    [null], there being no body stream. *)
Lemma send_skips_empty_legacy_header :
  let w := example_world response_empty_legacy example_envelope_text in
  let w0 := example_world response_no_content example_envelope_text in
  (exchange example_endpoint example_request w = inr response_empty_legacy ∧
   200 ≤ status response_empty_legacy ≤ 299 ∧
   headers_get response_empty_legacy WEB5_RESPONSE_HEADER = Some EmptyString ∧
   (run (send example_endpoint example_request) w).1
     ≠ (base64UrlToObject w EmptyString ≫=
          (fun decoded => reply_with_body decoded (Response_body response_empty_legacy))) ∧
   (run (send example_endpoint example_request) w).1
     = inr (object [("status", example_status)]) ∧
   trace (run (send example_endpoint example_request) w).2
     = [uuidv4;
        fetch example_endpoint
          (fetch_init (JSON_stringify (dwnRequest_of "uuid-0" example_request))
             example_request);
        Response_json response_empty_legacy]) ∧
  (exchange example_endpoint example_request w0 = inr response_no_content ∧
   200 ≤ status response_no_content ≤ 299 ∧
   headers_get response_no_content WEB5_RESPONSE_HEADER = Some example_legacy_header_record ∧
   body response_no_content = None ∧
   (run (send example_endpoint example_request) w0).1
     = inr (object [("entries", VNull);
                    ("message", VUndefined);
                    ("record", object [("recordId", VStr "r1"); ("data", VNull)]);
                    ("status", example_status)])).
Proof.
  intros w w0. split.
  - split; [reflexivity|]. split; [simpl; lia|]. split; [reflexivity|].
    split; [|split].
    + intros H. vm_compute in H. discriminate H.
    + vm_compute. reflexivity.
    + reflexivity.
  - split; [reflexivity|]. split; [simpl; lia|]. split; [reflexivity|].
    split; [reflexivity|]. vm_compute. reflexivity.
Qed.

(** C10 as written fails here: the response carries the [WEB5-RESPONSE]
    header, with an empty value, and the reply [send] returns has no [record]
    member.  It fails too on a response without body, status 204, that
    carries the header with a value: the [data] of the record is [null], not
    a stream. *)
Lemma send_empty_legacy_header_no_record :
  let w := example_world response_empty_legacy example_envelope_text in
  let w0 := example_world response_no_content example_envelope_text in
  (exchange example_endpoint example_request w = inr response_empty_legacy ∧
   200 ≤ status response_empty_legacy ≤ 299 ∧
   headers_get response_empty_legacy WEB5_RESPONSE_HEADER = Some EmptyString ∧
   ∃ out : gmap string value,
     (run (send example_endpoint example_request) w).1 = inr (VObj out) ∧
     out !! "record" = None) ∧
  (exchange example_endpoint example_request w0 = inr response_no_content ∧
   200 ≤ status response_no_content ≤ 299 ∧
   headers_get response_no_content WEB5_RESPONSE_HEADER = Some example_legacy_header_record ∧
   body response_no_content = None ∧
   ∃ out record : gmap string value,
     (run (send example_endpoint example_request) w0).1 = inr (VObj out) ∧
     out !! "record" = Some (VObj record) ∧
     record !! "data" = Some VNull).
Proof.
  intros w w0. split.
  - split; [reflexivity|]. split; [simpl; lia|]. split; [reflexivity|].
    exists (object_of [("status", example_status)]).
    split; vm_compute; reflexivity.
  - split; [reflexivity|]. split; [simpl; lia|]. split; [reflexivity|].
    split; [reflexivity|].
    exists (object_of [("entries", VNull); ("message", VUndefined);
                       ("record", object [("recordId", VStr "r1"); ("data", VNull)]);
                       ("status", example_status)]),
           (object_of [("recordId", VStr "r1"); ("data", VNull)]).
    split; [|split]; vm_compute; reflexivity.
Qed.

(** ** The data accessor *)

Module DataAccessorFacts.
Import DataAccessor.

Section Reads.

(** What the streams deliver when they are consumed. *)
Variable content : stream → string.

Lemma serve_expected b k a :
  memo_of b a →
  (serve b k a).1 = expected b k ∧ memo_of b (serve b k a).2 ∧
  phase (serve b k a).2 = phase a ∧ held (serve b k a).2 = held a ∧
  source (serve b k a).2 = source a ∧ fetches (serve b k a).2 = fetches a ∧
  consumptions (serve b k a).2 = consumptions a ∧ waiting (serve b k a).2 = waiting a.
Proof.
  intros Hm. destruct k; cbn [serve expected]; [|done].
  destruct (memo a) as [v|] eqn:E.
  - rewrite (Hm v E). done.
  - destruct (JSON_parse b) as [e|v] eqn:Ep; cbn; repeat split; try done.
    by intros v' [= <-].
Qed.

Lemma read_holds b k a :
  holds b a → (read content k a).1 = Some (expected b k) ∧ holds b (read content k a).2
              ∧ fetches (read content k a).2 = fetches a
              ∧ consumptions (read content k a).2 = consumptions a.
Proof.
  intros (Hp & Hh & Hm). unfold read, issue. rewrite Hp, Hh.
  destruct (serve_expected b k a Hm) as (Ho & Hm' & Hp' & Hh' & _ & Hf & Hc & _).
  destruct (serve b k a) as [o a']. cbn in *. subst o.
  repeat split; try done; congruence.
Qed.

Lemma reads_holds b ks a :
  holds b a →
  (reads content ks a).1 = map (λ k, Some (expected b k)) ks ∧
  fetches (reads content ks a).2 = fetches a ∧
  consumptions (reads content ks a).2 = consumptions a.
Proof.
  revert a. induction ks as [|k ks IH]; intros a Ha; [done|].
  cbn [reads map].
  destruct (read_holds b k a Ha) as (Ho & Ha' & Hf & Hc).
  destruct (read content k a) as [o a']. cbn [fst snd] in *.
  destruct (IH a' Ha') as (Hos & Hf' & Hc').
  destruct (reads content ks a') as [os a'']. cbn [fst snd] in *.
  subst. repeat split; congruence.
Qed.

Lemma serve_frame b k a :
  phase (serve b k a).2 = phase a ∧ held (serve b k a).2 = held a ∧
  source (serve b k a).2 = source a ∧ fetches (serve b k a).2 = fetches a ∧
  consumptions (serve b k a).2 = consumptions a ∧ waiting (serve b k a).2 = waiting a.
Proof.
  destruct k; cbn [serve]; [|done].
  destruct (memo a); [done|]. by destruct (JSON_parse b).
Qed.

Lemma serve_all_frame b ws a :
  phase (serve_all b ws a).2 = phase a ∧ held (serve_all b ws a).2 = held a ∧
  source (serve_all b ws a).2 = source a ∧ fetches (serve_all b ws a).2 = fetches a ∧
  consumptions (serve_all b ws a).2 = consumptions a.
Proof.
  unfold serve_all. destruct (existsb _ _); [|done].
  pose proof (serve_frame b AsJson a) as H.
  destruct (serve b AsJson a). cbn [snd] in *. tauto.
Qed.

Lemma serve_all_one b k a :
  memo_of b a →
  (serve_all b [(0%nat, k)] a).1 = [(0%nat, expected b k)] ∧ memo_of b (serve_all b [(0%nat, k)] a).2.
Proof.
  intros Hm. unfold serve_all. destruct k; cbn [existsb wants_json snd orb map fst].
  - destruct (serve_expected b AsJson a Hm) as (Ho & Hm' & _).
    destruct (serve b AsJson a). cbn [fst snd] in *. by subst.
  - done.
Qed.

Lemma issue_gone c k a :
  gone a → (issue c k a).1 = [(c, Rejected StreamExhaustedError)] ∧ gone (issue c k a).2.
Proof.
  intros [[Hp|Hp] Hh]; unfold issue; rewrite Hp, ?Hh; split; try done; split; auto.
Qed.

Lemma finish_gone a : gone a → finish content a = ([], a).
Proof. intros [[Hp|Hp] _]; unfold finish; by rewrite Hp. Qed.

Lemma steps_gone es a :
  gone a → Forall (λ co, co.2 = Rejected StreamExhaustedError) (steps content es a).1.
Proof.
  revert a. induction es as [|e es IH]; intros a Ha; [constructor|].
  cbn [steps]. destruct e as [c k|]; cbn [step].
  - destruct (issue_gone c k a Ha) as [Ho Ha'].
    destruct (issue c k a) as [os a']. cbn [fst snd] in *. subst os.
    specialize (IH a' Ha'). destruct (steps content es a'). cbn [fst] in *.
    by constructor.
  - rewrite finish_gone by done. specialize (IH a Ha).
    by destruct (steps content es a).
Qed.

Lemma reads_gone ks a :
  gone a → (reads content ks a).1 = map (λ _, Some (Rejected StreamExhaustedError)) ks.
Proof.
  revert a. induction ks as [|k ks IH]; intros a Ha; [done|].
  cbn [reads map]. unfold read.
  destruct (issue_gone 0 k a Ha) as [Ho Ha'].
  destruct (issue 0 k a) as [os a']. cbn [fst snd] in *. subst os.
  specialize (IH a' Ha'). destruct (reads content ks a'). cbn [fst] in *. by subst.
Qed.

(** C2.  On a Record built with a stream and no encoded bytes, whose stream
    delivers the text of the JSON value [v], the first [json()] consumes the
    stream and resolves with [v]; every later read is rejected with
    [StreamExhaustedError], and so is every read after any sequence of the
    events of an accessor: nothing resets it. *)
Theorem stream_read_once h fetchFn v :
  JSON_parse (content h) = inr v →
  let a0 := new None (Some h) fetchFn in
  let a1 := (read content AsJson a0).2 in
  (read content AsJson a0).1 = Some (Resolved (Json v)) ∧
  consumptions a1 = 1%nat ∧
  (∀ ks, (reads content ks a1).1 = map (λ _, Some (Rejected StreamExhaustedError)) ks) ∧
  (∀ es, Forall (λ co, co.2 = Rejected StreamExhaustedError) (steps content es a1).1).
Proof.
  intros Hv a0 a1.
  assert ((read content AsJson a0).1 = Some (Resolved (Json v)) ∧ consumptions a1 = 1%nat ∧ gone a1)
    as (H1 & H2 & H3).
  { unfold a1, a0, new, read, issue, finish, serve_all. cbn -[JSON_parse]. rewrite Hv.
    cbn -[JSON_parse]. repeat split; auto. }
  repeat split; auto using reads_gone, steps_gone.
Qed.

Lemma issue_memoized c b v a :
  phase a = Cached → held a = Some b → memo a = Some v →
  issue c AsJson a = ([(c, Resolved (Json v))], a).
Proof. intros Hp Hh Hm. unfold issue. rewrite Hp, Hh. cbn [serve]. by rewrite Hm. Qed.

Lemma read_memoized b v a :
  phase a = Cached → held a = Some b → memo a = Some v →
  read content AsJson a = (Some (Resolved (Json v)), a).
Proof. intros Hp Hh Hm. unfold read. by rewrite (issue_memoized 0 b v a). Qed.

(** C3.  On a Record built with encoded bytes that are the text of [v], three
    [json()] calls in a row resolve with [v]; the text is decoded once, by the
    first call; the second and the third call are answered at once, from the
    memo, with no fetch, no stream and no read in flight. *)
Theorem encoded_json_memoized buf data fetchFn v :
  JSON_parse buf = inr v →
  let a0 := new (Some buf) data fetchFn in
  let a1 := (read content AsJson a0).2 in
  let a2 := (read content AsJson a1).2 in
  let a3 := (read content AsJson a2).2 in
  (read content AsJson a0).1 = Some (Resolved (Json v)) ∧
  (read content AsJson a1).1 = Some (Resolved (Json v)) ∧
  (read content AsJson a2).1 = Some (Resolved (Json v)) ∧
  decodes a1 = 1%nat ∧ decodes a2 = 1%nat ∧ decodes a3 = 1%nat ∧
  fetches a3 = 0%nat ∧ consumptions a3 = 0%nat ∧
  (∀ c, (issue c AsJson a1).1 = [(c, Resolved (Json v))]) ∧
  (∀ c, (issue c AsJson a2).1 = [(c, Resolved (Json v))]).
Proof.
  intros Hv a0 a1 a2 a3.
  assert ((read content AsJson a0).1 = Some (Resolved (Json v)) ∧
          phase a1 = Cached ∧ held a1 = Some buf ∧ memo a1 = Some v ∧
          decodes a1 = 1%nat ∧ fetches a1 = 0%nat ∧ consumptions a1 = 0%nat)
    as (Ho & Hp & Hh & Hm & Hd & Hf & Hc).
  { unfold a1, a0, new, read, issue. cbn -[JSON_parse]. rewrite Hv. done. }
  assert (a2 = a1) as E2 by (unfold a2; by rewrite (read_memoized buf v a1)).
  assert (a3 = a1) as E3 by (unfold a3; rewrite E2; by rewrite (read_memoized buf v a1)).
  rewrite E3, E2, (read_memoized buf v a1) by done.
  repeat split; try done; intros c; by rewrite (issue_memoized c buf v a1).
Qed.

(** C4.  On a Record built with neither bytes nor stream, whose fetch returns
    the bytes [b], any run of reads yields what the same run yields on a
    Record built with [b] as its encoded bytes: every read is served from
    [b]; the node is fetched once. *)
Theorem fetched_bytes_repeatable b fetchFn ks :
  fetchFn tt = FetchedBytes b →
  let fetched := reads content ks (new None None fetchFn) in
  let encoded := reads content ks (new (Some b) None fetchFn) in
  fetched.1 = encoded.1 ∧
  fetched.1 = map (λ k, Some (expected b k)) ks ∧
  fetches fetched.2 = match ks with [] => 0%nat | _ => 1%nat end ∧
  consumptions fetched.2 = 0%nat.
Proof.
  intros Hf fetched encoded.
  assert (fetched.1 = map (λ k, Some (expected b k)) ks ∧
          fetches fetched.2 = match ks with [] => 0%nat | _ => 1%nat end ∧
          consumptions fetched.2 = 0%nat) as (H1 & H2 & H3).
  { unfold fetched. destruct ks as [|k ks]; [done|]. cbn [reads].
    assert ((read content k (new None None fetchFn)).1 = Some (expected b k) ∧
            holds b (read content k (new None None fetchFn)).2 ∧
            fetches (read content k (new None None fetchFn)).2 = 1%nat ∧
            consumptions (read content k (new None None fetchFn)).2 = 0%nat)
      as (Ho & Hh & Hn & Hc).
    { unfold new, read, issue, finish. cbn -[serve_all]. rewrite Hf.
      match goal with |- context [serve_all b _ ?a] =>
        pose proof (serve_all_one b k a) as Hone;
        pose proof (serve_all_frame b [(0%nat, k)] a) as Hfr;
        destruct (serve_all b [(0%nat, k)] a) as [os a'] end.
      cbn [fst snd] in *. destruct Hone as [-> Hm]; [by intros ?|].
      destruct Hfr as (_ & _ & _ & Hf' & Hc'). cbn in *.
      repeat split; try done. }
    destruct (read content k _) as [o a1]. cbn [fst snd] in *.
    destruct (reads_holds b ks a1 Hh) as (Hos & Hn' & Hc').
    destruct (reads content ks a1) as [os a2]. cbn [fst snd map] in *.
    subst. repeat split; congruence. }
  repeat split; try done. rewrite H1.
  unfold encoded. destruct ks as [|k ks]; [done|]. cbn [reads].
  assert ((read content k (new (Some b) None fetchFn)).1 = Some (expected b k) ∧
          holds b (read content k (new (Some b) None fetchFn)).2) as (Ho & Hh).
  { unfold new, read, issue. cbn -[serve].
    match goal with |- context [serve b k ?a] =>
      destruct (serve_expected b k a) as (Ho & Hm & Hp & Hh & _); [by intros ?|];
      destruct (serve b k a) as [o a'] end.
    cbn [fst snd] in *. subst. repeat split; done. }
  destruct (read content k _) as [o a1]. cbn [fst snd] in *.
  destruct (reads_holds b ks a1 Hh) as (Hos & _).
  destruct (reads content ks a1) as [os a2]. cbn [fst snd map] in *. by subst.
Qed.






End Reads.

Lemma stream_read_once_witness :
  let content := fun _ : stream => example_envelope_text in
  let a0 := new None (Some 7%nat) (fun _ => FetchedStream 7%nat) in
  JSON_parse (content 7%nat) = inr example_envelope ∧
  (read content AsJson a0).1 = Some (Resolved (Json example_envelope)) ∧
  (reads content [AsJson; AsBytes; AsJson] (read content AsJson a0).2).1
    = [Some (Rejected StreamExhaustedError); Some (Rejected StreamExhaustedError);
       Some (Rejected StreamExhaustedError)].
Proof.
  intros content a0.
  assert (JSON_parse (content 7%nat) = inr example_envelope) as H
    by (vm_compute; reflexivity).
  split; [exact H|].
  destruct (stream_read_once content 7%nat (fun _ => FetchedStream 7%nat) example_envelope H)
    as (H1 & _ & H2 & _).
  split; [exact H1|]. exact (H2 [AsJson; AsBytes; AsJson]).
Defined.

Lemma encoded_json_memoized_witness :
  let content := fun _ : stream => EmptyString in
  let a0 := new (Some example_envelope_text) None (fun _ => FetchedStream 7%nat) in
  let a1 := (read content AsJson a0).2 in
  let a2 := (read content AsJson a1).2 in
  JSON_parse example_envelope_text = inr example_envelope ∧
  (read content AsJson a0).1 = Some (Resolved (Json example_envelope)) ∧
  (read content AsJson a1).1 = Some (Resolved (Json example_envelope)) ∧
  (read content AsJson a2).1 = Some (Resolved (Json example_envelope)) ∧
  decodes (read content AsJson a2).2 = 1%nat.
Proof.
  intros content a0 a1 a2.
  assert (JSON_parse example_envelope_text = inr example_envelope) as H
    by (vm_compute; reflexivity).
  split; [exact H|].
  destruct (encoded_json_memoized content example_envelope_text None
              (fun _ => FetchedStream 7%nat) example_envelope H)
    as (H1 & H2 & H3 & _ & _ & H6 & _).
  split; [exact H1|]. split; [exact H2|]. split; [exact H3|]. exact H6.
Defined.

Lemma fetched_bytes_repeatable_witness :
  let content := fun _ : stream => EmptyString in
  let fetchFn := fun _ : unit => FetchedBytes example_envelope_text in
  fetchFn tt = FetchedBytes example_envelope_text ∧
  (reads content [AsJson; AsBytes; AsJson] (new None None fetchFn)).1
    = (reads content [AsJson; AsBytes; AsJson] (new (Some example_envelope_text) None fetchFn)).1 ∧
  fetches (reads content [AsJson; AsBytes; AsJson] (new None None fetchFn)).2 = 1%nat.
Proof.
  intros content fetchFn.
  assert (fetchFn tt = FetchedBytes example_envelope_text) as H by reflexivity.
  split; [exact H|].
  destruct (fetched_bytes_repeatable content example_envelope_text fetchFn
              [AsJson; AsBytes; AsJson] H) as (H1 & _ & H3 & _).
  split; [exact H1 | exact H3].
Defined.

End DataAccessorFacts.

(** * Further properties of the transport and of the envelopes *)

(** ** The calls of [send], whatever the answers *)

Lemma send_first_calls w endpoint request :
  let init := fetch_init (JSON_stringify (dwnRequest_of (uuids w (issued w)) request)) request in
  ∃ later, trace (run (send endpoint request) w).2
           = (trace w ++ uuidv4 :: fetch endpoint init :: later)%list ∧
    (later = [] ∨ (∃ h, later = [Encoder_base64UrlToObject h]) ∨
     (∃ h, later = [parseJson h]) ∨ (∃ r, later = [Response_json r])).
Proof.
  intros init. rewrite send_exchange. fold init.
  unfold exchanged, traced. fold init.
  destruct (exchange _ _ _) as [e|response]; [exists []; eauto|].
  cbv zeta. destruct (negb _); [exists []; eauto|].
  destruct (truthy _).
  { eexists. split; [cbn; by rewrite <- (assoc_L (++))|]. eauto. }
  destruct (truthy _).
  { eexists. split; [cbn; by rewrite <- (assoc_L (++))|]. eauto 6. }
  unfold read_json. destruct (body response) as [s|]; [destruct (decide _)|].
  - eexists. split; [cbn; by rewrite <- (assoc_L (++))|]. eauto 7.
  - eexists. split; [cbn; by rewrite <- (assoc_L (++))|]. eauto 7.
  - eexists. split; [cbn; by rewrite <- (assoc_L (++))|]. eauto 7.
Qed.

Lemma send_generator w endpoint request :
  let w' := (run (send endpoint request) w).2 in
  issued w' = S (issued w) ∧ uuids w' = uuids w ∧ network w' = network w.
Proof.
  intros w'. unfold w'. rewrite send_exchange. unfold exchanged, traced.
  destruct (exchange _ _ _) as [e|response]; [done|].
  cbv zeta. destruct (negb _); [done|].
  destruct (truthy _); [done|]. destruct (truthy _); [done|].
  unfold read_json. destruct (body response); [|done]. by destruct (decide _).
Qed.

(** X1.  When [fetch] itself rejects (the network is down, the endpoint is
    refused), [send] rejects with the same exception: it does not catch it
    and does not try again.  Its calls are the identifier and the one
    [fetch]; nothing was decoded and no body was read. *)
Theorem send_propagates_fetch_failure w endpoint request e :
  exchange endpoint request w = inl e →
  let init := fetch_init (JSON_stringify (dwnRequest_of (uuids w (issued w)) request)) request in
  (run (send endpoint request) w).1 = inl e ∧
  trace (run (send endpoint request) w).2 = (trace w ++ [uuidv4; fetch endpoint init])%list ∧
  disturbed (run (send endpoint request) w).2 = disturbed w.
Proof.
  intros Hx init. by rewrite send_exchange, Hx.
Qed.

(** X2.  Whatever the request and whatever the world answers, [send] draws
    one identifier, makes one [fetch], of the endpoint it was given, and
    after it at most one more call, which is a decoder or the reading of the
    body: never a second [fetch]. *)
Theorem send_call_discipline w endpoint request :
  let init := fetch_init (JSON_stringify (dwnRequest_of (uuids w (issued w)) request)) request in
  let w' := (run (send endpoint request) w).2 in
  issued w' = S (issued w) ∧
  ∃ later, trace w' = (trace w ++ uuidv4 :: fetch endpoint init :: later)%list ∧
    (later = [] ∨ (∃ h, later = [Encoder_base64UrlToObject h]) ∨
     (∃ h, later = [parseJson h]) ∨ (∃ r, later = [Response_json r])).
Proof.
  intros init w'. split; [apply send_generator|]. apply send_first_calls.
Qed.

(** X3.  On a 2xx response [send] reads the body exactly when neither header
    has a non-empty value.  In the two header branches the body stream that
    the reply carries as [record.data] is handed over unread, also when the
    decoding fails.  A response without body has no stream to read. *)
Theorem send_reads_body_iff_no_header w endpoint request response :
  exchange endpoint request w = inr response →
  200 ≤ status response ≤ 299 →
  disturbed (run (send endpoint request) w).2 =
    if truthy (headers_get response WEB5_RESPONSE_HEADER)
       || truthy (headers_get response DWN_RESPONSE_HEADER)
    then disturbed w
    else match body response with
         | Some s => {[s]} ∪ disturbed w
         | None => disturbed w
         end.
Proof.
  intros Hx Hs. rewrite send_exchange, Hx. cbv zeta.
  apply Response_ok_2xx in Hs as ->. cbn [negb].
  destruct (truthy _); [done|]. destruct (truthy _); [done|]. cbn [orb].
  unfold read_json. destruct (body response) as [s|]; [|done].
  destruct (decide _) as [Hd|Hd]; cbn; [|done].
  unfold exchanged in Hd. cbn in Hd. symmetry.
  by apply subseteq_union_1_L, singleton_subseteq_l.
Qed.

(** ** The reply of the header branches *)



(** X5.  When the non-empty [WEB5-RESPONSE] header decodes to [null], or,
    that header being absent or empty, the [result.reply] of the envelope in
    the non-empty [dwn-response] header is [null] or [undefined], [send]
    throws a [TypeError]: the reply cannot be destructured. *)
Theorem send_header_reply_null w endpoint request response reply :
  exchange endpoint request w = inr response →
  200 ≤ status response ≤ 299 →
  reply = VNull ∨ reply = VUndefined →
  (∃ c h, headers_get response WEB5_RESPONSE_HEADER = Some (String c h) ∧
          base64UrlToObject w (String c h) = inr reply) ∨
  (truthy (headers_get response WEB5_RESPONSE_HEADER) = false ∧
   ∃ c h envelope, headers_get response DWN_RESPONSE_HEADER = Some (String c h) ∧
                   utils_parseJson w (String c h) = inr envelope ∧
                   result_reply envelope = inr reply) →
  (run (send endpoint request) w).1 = inl TypeError.
Proof.
  intros Hx Hs Hr Hh. rewrite send_exchange, Hx. cbv zeta.
  apply Response_ok_2xx in Hs as ->. cbn [negb].
  destruct Hh as [(c & h & -> & Hd)|(Hf & c & h & envelope & Hh & Hd & Hrr)].
  - cbn [truthy default from_option id fst]. rewrite Hd. by destruct Hr as [-> | ->].
  - rewrite Hf, Hh. cbn [truthy default from_option id fst]. rewrite Hd.
    cbn [mbind result_bind]. rewrite Hrr. by destruct Hr as [-> | ->].
Qed.

(** ** Responses built by json-rpc.js, as [send] takes them *)

(** X6.  A 2xx response that carries a JSON-RPC error response, as
    [createJsonRpcErrorResponse] builds it, in its [dwn-response] header or
    in its body, makes [send] throw a [TypeError]: the error response has no
    [result] member, and [send] reads [result.reply].  The code and the
    message of the JSON-RPC error do not reach the caller. *)
Theorem send_rejects_error_response w endpoint request response id code message data :
  exchange endpoint request w = inr response →
  200 ≤ status response ≤ 299 →
  truthy (headers_get response WEB5_RESPONSE_HEADER) = false →
  (∃ c h, headers_get response DWN_RESPONSE_HEADER = Some (String c h) ∧
          utils_parseJson w (String c h)
            = inr (createJsonRpcErrorResponse id code message data)) ∨
  (truthy (headers_get response DWN_RESPONSE_HEADER) = false ∧
   ∃ s, body response = Some s ∧ (s ∉ disturbed w) ∧
        body_json w s = inr (createJsonRpcErrorResponse id code message data)) →
  (run (send endpoint request) w).1 = inl TypeError.
Proof.
  intros Hx Hs Hf Hh. rewrite send_exchange, Hx. cbv zeta.
  apply Response_ok_2xx in Hs as ->. cbn [negb]. rewrite Hf.
  assert (result_reply (createJsonRpcErrorResponse id code message data) = inl TypeError) as Hr.
  { unfold result_reply, createJsonRpcErrorResponse, object, object_of.
    cbn [foldl fst snd get]. by simplify_map_eq. }
  destruct Hh as [(c & h & -> & Hd)|(Hf' & s & Hs & Hb & Hd)].
  - cbn [truthy default from_option Datatypes.id fst]. rewrite Hd.
    cbn [mbind result_bind]. by rewrite Hr.
  - rewrite Hf'. unfold read_json. rewrite Hs. rewrite decide_False by done. cbn [fst].
    cbn [body_json exchanged with_trace with_issued]. rewrite Hd.
    cbn [mbind result_bind]. by rewrite Hr.
Qed.

(** X7.  A 2xx response with neither header whose body is a success response
    built by [createJsonRpcSuccessResponse(id, result)] makes [send] return
    [result.reply], whatever [id] is: the identifier of the response is not
    compared with that of the request.  When [result] was [undefined] or
    [null] the response holds [result: null], and [send] throws a
    [TypeError]. *)
Theorem send_unwraps_success_response w endpoint request response s id result :
  exchange endpoint request w = inr response →
  200 ≤ status response ≤ 299 →
  truthy (headers_get response WEB5_RESPONSE_HEADER) = false →
  truthy (headers_get response DWN_RESPONSE_HEADER) = false →
  body response = Some s →
  s ∉ disturbed w →
  body_json w s = inr (createJsonRpcSuccessResponse id result) →
  (run (send endpoint request) w).1 =
    match result with
    | VUndefined | VNull => inl TypeError
    | _ => get result "reply"
    end.
Proof.
  intros Hx Hs Hf Hf' Hbody Hb Hd. rewrite send_exchange, Hx. cbv zeta.
  apply Response_ok_2xx in Hs as ->. cbn [negb]. rewrite Hf, Hf'.
  unfold read_json. rewrite Hbody. rewrite decide_False by done. cbn [fst].
  cbn [body_json exchanged with_trace with_issued]. rewrite Hd.
  cbn [mbind result_bind].
  unfold result_reply, createJsonRpcSuccessResponse, object, object_of.
  cbn [foldl fst snd get]. simplify_map_eq.
  cbn [mbind result_bind default from_option Datatypes.id].
  by destruct result.
Qed.

(** X8.  What [send] returns or throws is decided by the response alone: two
    requests, to any endpoints, that the network answers with the same
    response have the same outcome.  Nothing of the request, its identifier
    included, is checked against the reply. *)
Theorem send_reply_ignores_request w endpoint request endpoint' request' response :
  exchange endpoint request w = inr response →
  exchange endpoint' request' w = inr response →
  (run (send endpoint request) w).1 = (run (send endpoint' request') w).1.
Proof.
  intros Hx Hx'. rewrite !send_exchange, Hx, Hx'. cbv zeta.
  destruct (negb _); [done|].
  destruct (truthy _); [done|]. destruct (truthy _); [done|].
  unfold read_json, exchanged. cbn [disturbed with_trace with_issued body_json].
  destruct (body response); [|done]. by destruct (decide _).
Qed.

Lemma strip_prefix_app p s : strip_prefix p (p +:+ s) = Some s.
Proof.
  induction p as [|a p IH]; [done|]. rewrite strapp_cons. cbn [strip_prefix].
  by rewrite Ascii.eqb_refl.
Qed.

(** X9.  The message of the [Error] that [send] throws on a status outside
    200..299 is [Fetch failed with status ] followed by the decimal numeral
    of the status and nothing else: the status is read back from the
    message. *)
Theorem send_failure_names_status w endpoint request response :
  exchange endpoint request w = inr response →
  ¬ (200 ≤ status response ≤ 299) →
  ∃ msg, (run (send endpoint request) w).1 = inl (Error msg) ∧
         (strip_prefix "Fetch failed with status " msg ≫= parse_number)
           = Some (status response, EmptyString).
Proof.
  intros Hx Hs. rewrite send_exchange, Hx. cbv zeta.
  destruct (Response_ok response) eqn:E; [by apply Response_ok_2xx in E|].
  cbn [negb fst]. eexists. split; [reflexivity|].
  rewrite strip_prefix_app. cbn [mbind option_bind].
  rewrite <- (strapp_nil_r (Number_toString _)). by apply parse_number_toString.
Qed.

(** X10.  However a [send] ends, the next [send] in the same world draws the
    next identifier of the generator, and its envelope carries it as [id]:
    the identifiers of consecutive requests are consecutive outputs of
    [uuidv4]. *)
Theorem send_draws_next_identifier w endpoint request endpoint' request' :
  let w1 := (run (send endpoint request) w).2 in
  let id' := uuids w (S (issued w)) in
  own (dwnRequest_of id' request') "id" = Some (VStr id') ∧
  ∃ later, trace (run (send endpoint' request') w1).2
           = (trace w1 ++ uuidv4 ::
                fetch endpoint' (fetch_init (JSON_stringify (dwnRequest_of id' request')) request')
                :: later)%list.
Proof.
  intros w1 id'. split.
  { unfold dwnRequest_of, createJsonRpcRequest, object, object_of, own. cbn [foldl fst snd].
    by rewrite lookup_insert_ne, lookup_insert_ne, lookup_insert_eq. }
  destruct (send_generator w endpoint request) as (Hi & Hu & _). fold w1 in Hi, Hu.
  destruct (send_first_calls w1 endpoint' request') as (later & Htr & _).
  rewrite Hi, Hu in Htr. by exists later.
Qed.

(** ** What a reader of the JSON text obtains *)

Lemma reads_serializable v : serializable v = true → reads_as (jtext v) v.
Proof. intros H. by destruct (reads_back_all v H) as (_ & ? & ?). Qed.

Lemma reads_element x :
  reads_image x → reads_as (jtext x) (default VNull (JSON_image x)).
Proof.
  unfold reads_image, jtext.
  destruct (JSON_stringify x) as [t|], (JSON_image x) as [i|]; try done.
  intros _. by apply (reads_serializable VNull).
Qed.

Lemma parse_elements_texts (tis : list (string * value)) :
  tis ≠ [] → Forall (λ ti, reads_as ti.1 ti.2) tis →
  ∀ fuel rest,
    (String.length (join_comma tis.*1) + 1 < fuel)%nat → delim rest →
    parse_elements fuel (join_comma tis.*1 +:+ String "]" rest) = Some (tis.*2, rest).
Proof.
  induction tis as [|[t i] tis IH]; [done|]. intros _ HF fuel rest Hlen Hd.
  apply Forall_cons in HF as [(_ & Hx) HF]. cbn [fst snd] in Hx.
  destruct fuel as [|fuel]; [lia|]. rewrite parse_elements_S.
  destruct tis as [|[t' i'] tis].
  - cbn [fmap list_fmap fst snd join_comma] in *.
    rewrite Hx; [reflexivity | lia | simpl; auto].
  - cbn [fmap list_fmap fst snd] in *. rewrite join_comma_cons in *.
    rewrite strlen_app in Hlen. cbn [String.length] in Hlen.
    rewrite strapp_assoc, strapp_cons.
    rewrite Hx; [| lia | simpl; auto].
    cbn [skip_ws]. change (is_ws ",") with false. cbv iota.
    change (N_of_ascii "," =? 44)%N with true. cbv iota.
    rewrite IH; [reflexivity | done | done | lia | done].
Qed.

Lemma member_text_app k t R :
  member_text k t +:+ R =
  String dquote (quote_body k +:+ String dquote (String ":" (t +:+ R))).
Proof.
  unfold member_text, QuoteJSONString.
  rewrite !strapp_cons, !strapp_assoc. reflexivity.
Qed.

Lemma parse_members_texts (ktis : list (string * (string * value))) :
  ktis ≠ [] → Forall (λ kti, reads_as kti.2.1 kti.2.2) ktis →
  ∀ fuel rest,
    (String.length (join_comma (map (λ kti, member_text kti.1 kti.2.1) ktis)) + 1 < fuel)%nat →
    delim rest →
    parse_members fuel
      (join_comma (map (λ kti, member_text kti.1 kti.2.1) ktis) +:+ String "}" rest)
    = Some (map (λ kti, (kti.1, kti.2.2)) ktis, rest).
Proof.
  induction ktis as [|[k [t i]] ktis IH]; [done|]. intros _ HF fuel rest Hlen Hd.
  apply Forall_cons in HF as [(_ & Hx) HF]. cbn [fst snd] in Hx.
  destruct fuel as [|fuel]; [lia|].
  assert (String.length t + 3 ≤ String.length (member_text k t))%nat as Hm.
  { unfold member_text, QuoteJSONString.
    rewrite strapp_cons. cbn [String.length].
    rewrite !strlen_app. cbn [String.length]. lia. }
  destruct ktis as [|kti ktis].
  - cbn [map join_comma fst snd] in *. rewrite member_text_app, parse_members_quote.
    rewrite Hx; [reflexivity | lia | simpl; auto].
  - cbn [map fst snd] in *. rewrite join_comma_cons in *.
    rewrite strlen_app in Hlen. cbn [String.length] in Hlen.
    rewrite strapp_assoc, strapp_cons, member_text_app, parse_members_quote.
    rewrite Hx; [| lia | simpl; auto].
    cbn [skip_ws]. change (is_ws ",") with false. cbv iota.
    change (N_of_ascii "," =? 44)%N with true. cbv iota.
    rewrite IH; [reflexivity | done | done | lia | done].
Qed.

Lemma image_members_text (l : list (string * value)) :
  Forall (λ kx, reads_image kx.2) l →
  foldr (uncurry (fun k x acc =>
                    match JSON_stringify x with
                    | Some t => member_text k t :: acc
                    | None => acc
                    end)) [] l
  = map (λ kti, member_text kti.1 kti.2.1) (image_members l) ∧
  Forall (λ kti, reads_as kti.2.1 kti.2.2) (image_members l).
Proof.
  induction 1 as [|[k x] l Hx _ [IH1 IH2]]; [done|].
  unfold image_members in *. cbn [foldr uncurry omap list_omap fst snd].
  unfold reads_image in Hx. cbn [snd] in Hx.
  destruct (JSON_stringify x) as [t|], (JSON_image x) as [i|]; try done;
    cbn [mbind option_bind map fst snd]; rewrite IH1; split; try done.
  by constructor.
Qed.

Lemma JSON_image_has_text v : is_Some (JSON_image v) ↔ is_Some (JSON_stringify v).
Proof. destruct v; cbn; split; intros [? H]; try discriminate H; by eexists. Qed.

Lemma elem_of_image_members (l : list (string * value)) k y :
  (k, y) ∈ map (λ kti : string * (string * value), (kti.1, kti.2.2)) (image_members l) ↔
  ∃ x, (k, x) ∈ l ∧ JSON_image x = Some y.
Proof.
  unfold image_members. rewrite list_elem_of_fmap. split.
  - intros ([k' [t i]] & [= <- <-] & H). apply list_elem_of_omap in H as ([k' x] & Hx & H).
    cbn [fst snd] in H. destruct (JSON_stringify x) as [t'|]; [|discriminate].
    destruct (JSON_image x) as [i'|] eqn:E; [|discriminate].
    cbn in H. injection H as <- <- <-. eauto.
  - intros (x & Hx & Hi).
    destruct (proj1 (JSON_image_has_text x)) as [t Ht]; [by eexists|].
    exists (k, (t, y)). split; [done|]. apply list_elem_of_omap.
    exists (k, x). split; [done|]. cbn [fst snd]. by rewrite Ht, Hi.
Qed.

Lemma image_members_keys (l : list (string * value)) :
  NoDup l.*1 →
  NoDup (map (λ kti : string * (string * value), (kti.1, kti.2.2)) (image_members l)).*1.
Proof.
  induction l as [|[k x] l IH]; [constructor|].
  intros [Hk Hl]%NoDup_cons. unfold image_members in *. cbn [omap list_omap fst snd].
  destruct (JSON_stringify x) as [t|]; cbn [mbind option_bind]; [|by apply IH].
  destruct (JSON_image x) as [i|]; cbn [mbind option_bind]; [|by apply IH].
  cbn [map fmap list_fmap fst snd]. apply NoDup_cons. split; [|by apply IH].
  intros H. apply Hk. apply list_elem_of_fmap in H as ([k' y] & -> & H).
  apply elem_of_image_members in H as (x' & Hx' & _).
  apply list_elem_of_fmap. by exists (k', x').
Qed.

Lemma image_members_object (o : gmap string value) :
  object_of (map (λ kti, (kti.1, kti.2.2)) (image_members (map_to_list o)))
  = omap JSON_image o.
Proof.
  pose proof (image_members_keys _ (NoDup_fst_map_to_list o)) as Hnd.
  unfold object_of. rewrite object_of_from, (right_id_L ∅ (∪)) by done.
  apply map_eq. intros k. apply option_eq. intros y.
  rewrite <- elem_of_list_to_map, elem_of_image_members, lookup_omap by done.
  split.
  - intros (x & Hx & Hi). apply elem_of_map_to_list in Hx. by rewrite Hx.
  - destruct (o !! k) as [x|] eqn:E; [|done]. intros Hi. exists x.
    by rewrite elem_of_map_to_list.
Qed.

Lemma encodable_props (o : gmap string value) :
  encodable (VObj o) = true ↔ map_Forall (λ _ x, encodable x = true) o.
Proof.
  cbn [encodable]. rewrite map_fold_foldr, map_Forall_to_list.
  induction (map_to_list o) as [|[k x] l IH]; [done|].
  cbn [foldr uncurry fst snd]. rewrite andb_true_iff, Forall_cons, IH. done.
Qed.

Lemma reads_image_all v : encodable v = true → reads_image v.
Proof.
  induction v as [| |b|n|s|l IH|o IH| |] using value_ind'; intros He; try done.
  - by apply (reads_serializable VNull).
  - by apply (reads_serializable (VBool b)).
  - by apply (reads_serializable (VNum n)).
  - by apply (reads_serializable (VStr s)).
  - cbn [encodable] in He. rewrite forallb_forall in He.
    set (tis := map (λ x, (jtext x, default VNull (JSON_image x))) l).
    assert (Forall (λ ti, reads_as ti.1 ti.2) tis) as HF.
    { apply Forall_fmap, Forall_forall. intros x Hx. cbn [fst snd].
      apply reads_element. eapply Forall_forall in IH; [|done].
      apply IH, He. by apply list_elem_of_In. }
    assert (map jtext l = tis.*1) as Ht.
    { unfold tis. rewrite <- list_fmap_compose. done. }
    assert (map (λ x, default VNull (JSON_image x)) l = tis.*2) as Hi.
    { unfold tis. rewrite <- list_fmap_compose. done. }
    unfold reads_image. cbn [JSON_stringify JSON_image]. fold jtext. rewrite Ht, Hi.
    split; [by eexists _, _|].
    intros [|fuel] rest Hl Hd; [lia|].
    rewrite !strapp_cons in *. change (EmptyString +:+ ?s) with s in *.
    cbn [String.length] in Hl. rewrite !strlen_app in Hl. cbn [String.length] in Hl.
    rewrite parse_value_array, strapp_assoc, strapp_cons.
    change (EmptyString +:+ rest) with rest.
    destruct tis as [|[t i] tis'] eqn:Etis; [reflexivity|]. rewrite <- Etis in *.
    assert (∃ c u, join_comma tis.*1 = String c u ∧ is_ws c = false ∧
                   (N_of_ascii c =? 93)%N = false) as (c & u & E & Hw & Hc).
    { rewrite Etis. rewrite Etis in HF.
      apply Forall_cons in HF as [((c & u & E & ? & ? & _) & _) _]. cbn [fst] in E.
      destruct tis' as [|[t' i'] tis'']; cbn [fmap list_fmap fst];
        [cbn [join_comma]|rewrite join_comma_cons];
        rewrite E, ?strapp_cons; eauto. }
    rewrite parse_elements_texts by (done || lia || by rewrite Etis).
    rewrite E, strapp_cons, skip_ws_nonws by done. by rewrite Hc.
  - apply encodable_props in He.
    assert (Forall (λ kx, reads_image kx.2) (map_to_list o)) as HF.
    { apply Forall_forall. intros [k x] Hx. apply elem_of_map_to_list in Hx.
      cbn [snd]. apply (IH k x Hx). by apply (He k x). }
    destruct (image_members_text _ HF) as [Ht Hr].
    unfold reads_image. cbn [JSON_stringify JSON_image].
    rewrite map_fold_foldr, Ht, <- image_members_object.
    split; [by eexists _, _|].
    intros [|fuel] rest Hl Hd; [lia|].
    rewrite !strapp_cons in *. change (EmptyString +:+ ?s) with s in *.
    cbn [String.length] in Hl. rewrite !strlen_app in Hl. cbn [String.length] in Hl.
    rewrite parse_value_object, strapp_assoc, strapp_cons.
    change (EmptyString +:+ rest) with rest.
    destruct (image_members (map_to_list o)) as [|[k [t i]] ktis] eqn:Eo; [reflexivity|].
    rewrite parse_members_texts by (done || lia).
    destruct ktis; cbn [map fst snd]; [cbn [join_comma]|rewrite join_comma_cons];
      rewrite ?strapp_assoc, member_text_app; reflexivity.
  - split; [by eexists _, _|]. intros [|fuel] rest Hl Hd; [cbn in Hl; lia|]. reflexivity.
Qed.

Lemma JSON_parse_image v :
  encodable v = true →
  JSON_parse <$> JSON_stringify v = (inr <$> JSON_image v : option (exn + value)).
Proof.
  intros He. pose proof (reads_image_all v He) as H. unfold reads_image in H.
  destruct (JSON_stringify v) as [t|], (JSON_image v) as [i|]; try done.
  destruct H as [_ H]. cbn [fmap option_fmap option_map]. f_equal. unfold JSON_parse.
  specialize (H (S (String.length t)) EmptyString). rewrite strapp_nil_r in H.
  rewrite H; [reflexivity|lia|done].
Qed.




Lemma encodable_object l :
  Forall (λ kx, encodable kx.2 = true) l → encodable (object l) = true.
Proof.
  intros HF. unfold object, object_of. apply encodable_props.
  assert (map_Forall (λ _ x, encodable x = true) (∅ : gmap string value)) as H0
    by apply map_Forall_empty.
  revert H0. generalize (∅ : gmap string value).
  induction HF as [|[k x] l Hx _ IH]; intros m Hm; [done|].
  cbn [foldl fst snd]. apply IH. by apply map_Forall_insert_2.
Qed.





(** ** The header value holds no control character *)

Lemma header_safe_app s t : header_safe (s +:+ t) = header_safe s && header_safe t.
Proof.
  induction s as [|c s IH]; [done|]. rewrite strapp_cons. cbn [header_safe].
  by rewrite IH, andb_assoc.
Qed.

Lemma escape_safe c : header_safe (escape c) = true.
Proof. destruct c as [[] [] [] [] [] [] [] []]; vm_compute; reflexivity. Qed.

Lemma QuoteJSONString_safe s : header_safe (QuoteJSONString s) = true.
Proof.
  unfold QuoteJSONString. cbn [header_safe]. rewrite header_safe_app.
  cbn [header_safe]. rewrite andb_true_r. change (32 <=? N_of_ascii dquote)%N with true.
  cbn [andb]. induction s as [|c s IH]; [done|].
  cbn [quote_body]. by rewrite header_safe_app, escape_safe, IH.
Qed.

Lemma string_of_uint_safe u : header_safe (NilEmpty.string_of_uint u) = true.
Proof. induction u; cbn [NilEmpty.string_of_uint header_safe]; by rewrite ?IHu. Qed.

Lemma Number_toString_safe n : header_safe (Number_toString n) = true.
Proof.
  unfold Number_toString, NilZero.string_of_int, NilZero.string_of_uint.
  destruct (Z.to_int n) as [u|u]; [|cbn [header_safe]];
    destruct u; try reflexivity;
    cbn [NilEmpty.string_of_uint header_safe]; by rewrite ?string_of_uint_safe.
Qed.

Lemma join_comma_safe l :
  Forall (λ t, header_safe t = true) l → header_safe (join_comma l) = true.
Proof.
  induction 1 as [|t l Ht _ IH]; [done|].
  destruct l as [|u l]; [done|]. rewrite join_comma_cons, header_safe_app, Ht.
  cbn [header_safe andb] in *. by rewrite IH.
Qed.

Lemma member_text_safe k t : header_safe t = true → header_safe (member_text k t) = true.
Proof.
  intros Ht. unfold member_text. by rewrite !header_safe_app, QuoteJSONString_safe, Ht.
Qed.

Lemma header_safe_wrap a m b :
  (32 <=? N_of_ascii a)%N = true → (32 <=? N_of_ascii b)%N = true →
  header_safe m = true →
  header_safe (String a EmptyString +:+ m +:+ String b EmptyString) = true.
Proof.
  intros Ha Hb Hm. rewrite !header_safe_app. cbn [header_safe]. by rewrite Ha, Hb, Hm.
Qed.

Lemma JSON_stringify_safe v t : JSON_stringify v = Some t → header_safe t = true.
Proof.
  revert t. induction v as [| |b|n|s|l IH|o IH| |] using value_ind';
    intros t; cbn [JSON_stringify]; intros [= <-]; try done.
  - by destruct b.
  - apply Number_toString_safe.
  - apply QuoteJSONString_safe.
  - apply (header_safe_wrap "[" _ "]"); [done|done|].
    apply join_comma_safe, Forall_fmap, Forall_forall. intros x Hx. cbn.
    eapply Forall_forall in IH; [|done].
    destruct (JSON_stringify x) as [u|]; [by apply IH|done].
  - apply (header_safe_wrap "{" _ "}"); [done|done|].
    apply join_comma_safe. rewrite map_fold_foldr.
    assert (Forall (λ kx, ∀ u, JSON_stringify kx.2 = Some u → header_safe u = true)
              (map_to_list o)) as HF.
    { apply Forall_forall. intros [k x] Hx. apply elem_of_map_to_list in Hx.
      by apply (IH k x). }
    induction HF as [|[k x] l Hx _ IHl]; [constructor|].
    cbn [foldr uncurry fst snd] in *.
    destruct (JSON_stringify x) as [u|]; [|done].
    constructor; [|done]. by apply member_text_safe, Hx.
Qed.

(** X13.  Whatever the request holds (strings with line feeds or other
    control characters in the message, the author or the target), the value
    [send] gives the [dwn-request] header has no control character in it:
    no NUL, no carriage return, no line feed. *)
Theorem send_header_single_line w endpoint request :
  ∃ text later,
    trace (run (send endpoint request) w).2
      = (trace w ++ uuidv4 ::
           fetch endpoint {| req_method := "POST"; req_mode := "cors"; req_cache := "no-cache";
                             req_headers := [(DWN_MESSAGE_HEADER, text)];
                             req_body := data request |} :: later)%list ∧
    header_safe text = true.
Proof.
  destruct (send_first_calls w endpoint request) as (later & Htr & _).
  destruct (JSON_stringify (dwnRequest_of (uuids w (issued w)) request)) as [text|] eqn:E;
    [|discriminate E].
  exists text, later. split; [exact Htr|]. by eapply JSON_stringify_safe.
Qed.

(** ** The envelopes of json-rpc.js on the wire *)

(** X14.  An error response built from serializable [id], [code] and
    [message], with [data] left out or serializable ([null] included), has
    no [result] member and is read back from its text exactly: the builder
    never sets a member to [undefined], so nothing is lost, and a response
    without [data] is read back without [data]. *)
Theorem createJsonRpcErrorResponse_round_trip id code message data :
  serializable id = true → serializable code = true → serializable message = true →
  data = VUndefined ∨ serializable data = true →
  own (createJsonRpcErrorResponse id code message data) "result" = None ∧
  ∃ text, JSON_stringify (createJsonRpcErrorResponse id code message data) = Some text ∧
          JSON_parse text = inr (createJsonRpcErrorResponse id code message data).
Proof.
  intros Hi Hc Hm Hd. split.
  { unfold createJsonRpcErrorResponse, object, object_of, own. cbn [foldl fst snd].
    by rewrite !lookup_insert_ne. }
  apply JSON_parse_stringify.
  unfold createJsonRpcErrorResponse, object, object_of. cbn [foldl fst snd].
  apply serializable_obj.
  repeat (apply map_Forall_insert_2; [try done|]); [|apply map_Forall_empty].
  apply serializable_obj.
  destruct Hd as [->|Hd].
  - repeat (apply map_Forall_insert_2; [done|]). apply map_Forall_empty.
  - destruct data; try discriminate Hd;
      repeat (apply map_Forall_insert_2; [done|]); apply map_Forall_empty.
Qed.

(** X15.  A success response built from a serializable [id], with [result]
    left out or serializable, has no [error] member, has a [result] member
    that is not [undefined] ([null] when [result] was left out), and is read
    back from its text exactly. *)
Theorem createJsonRpcSuccessResponse_round_trip id result :
  serializable id = true →
  result = VUndefined ∨ serializable result = true →
  own (createJsonRpcSuccessResponse id result) "error" = None ∧
  (∃ r, own (createJsonRpcSuccessResponse id result) "result" = Some r ∧ r ≠ VUndefined) ∧
  ∃ text, JSON_stringify (createJsonRpcSuccessResponse id result) = Some text ∧
          JSON_parse text = inr (createJsonRpcSuccessResponse id result).
Proof.
  intros Hi Hr. split; [|split].
  { unfold createJsonRpcSuccessResponse, object, object_of, own. cbn [foldl fst snd].
    by rewrite !lookup_insert_ne. }
  { unfold createJsonRpcSuccessResponse, object, object_of, own. cbn [foldl fst snd].
    rewrite lookup_insert_eq. eexists. split; [reflexivity|].
    destruct Hr as [->|Hr]; [done|]. by destruct result. }
  apply JSON_parse_stringify.
  unfold createJsonRpcSuccessResponse, object, object_of. cbn [foldl fst snd].
  apply serializable_obj.
  repeat (apply map_Forall_insert_2; [try done|]); [|apply map_Forall_empty].
  destruct Hr as [->|Hr]; [done|]. by destruct result.
Qed.

(** X16.  On the wire a request built with [undefined] as its [id] is a
    notification: a reader of the text of [createJsonRpcRequest(undefined,
    method, params)] and a reader of the text of
    [createJsonRpcNotification(method, params)] obtain the same object, which
    has no [id] member. *)
Theorem request_without_id_is_notification method params :
  encodable method = true → encodable params = true →
  ∃ image : gmap string value,
    JSON_parse <$> JSON_stringify (createJsonRpcRequest VUndefined method params)
      = Some (inr (VObj image)) ∧
    JSON_parse <$> JSON_stringify (createJsonRpcNotification method params)
      = Some (inr (VObj image)) ∧
    image !! "id" = None.
Proof.
  intros Hm Hp.
  assert (encodable (createJsonRpcRequest VUndefined method params) = true) as H1.
  { apply encodable_object. by repeat constructor. }
  assert (encodable (createJsonRpcNotification method params) = true) as H2.
  { apply encodable_object. by repeat constructor. }
  apply JSON_parse_image in H1, H2. rewrite H1, H2.
  unfold createJsonRpcRequest, createJsonRpcNotification, object, object_of.
  cbn [foldl fst snd JSON_image fmap option_fmap option_map].
  eexists. split; [reflexivity|]. split.
  - apply (f_equal Some), (f_equal inr), (f_equal VObj), map_eq. intros k.
    rewrite !lookup_omap.
    destruct (decide (k = "params")) as [->|]; [by rewrite !lookup_insert_eq|].
    rewrite !(lookup_insert_ne _ "params") by done.
    destruct (decide (k = "method")) as [->|]; [by rewrite !lookup_insert_eq|].
    rewrite !(lookup_insert_ne _ "method") by done.
    destruct (decide (k = "id")) as [->|]; [by rewrite lookup_insert_eq, lookup_insert_ne|].
    by rewrite !(lookup_insert_ne _ "id") by done.
  - rewrite lookup_omap. by rewrite lookup_insert_ne, lookup_insert_ne, lookup_insert_eq.
Qed.

(** ** The further properties at work on the example worlds *)

Lemma send_propagates_fetch_failure_witness :
  exchange example_endpoint example_request example_offline_world = inl TypeError ∧
  (run (send example_endpoint example_request) example_offline_world).1 = inl TypeError.
Proof.
  assert (exchange example_endpoint example_request example_offline_world = inl TypeError) as H
    by reflexivity.
  split; [exact H|].
  exact (proj1 (send_propagates_fetch_failure _ _ _ _ H)).
Defined.

Lemma send_reads_body_iff_no_header_witness :
  let w := example_world response_plain example_envelope_text in
  exchange example_endpoint example_request w = inr response_plain ∧
  200 ≤ status response_plain ≤ 299 ∧
  body response_plain = Some 7%nat ∧
  disturbed (run (send example_endpoint example_request) w).2 = {[7%nat]} ∪ ∅.
Proof.
  intros w.
  assert (exchange example_endpoint example_request w = inr response_plain) as H1
    by reflexivity.
  assert (200 ≤ status response_plain ≤ 299) as H2 by (simpl; lia).
  split; [exact H1|]. split; [exact H2|]. split; [reflexivity|].
  exact (send_reads_body_iff_no_header w _ _ _ H1 H2).
Defined.


Lemma send_header_reply_null_witness :
  let w := example_world response_legacy_null example_envelope_text in
  exchange example_endpoint example_request w = inr response_legacy_null ∧
  200 ≤ status response_legacy_null ≤ 299 ∧
  base64UrlToObject w "bnVsbA" = inr VNull ∧
  (run (send example_endpoint example_request) w).1 = inl TypeError.
Proof.
  intros w.
  assert (exchange example_endpoint example_request w = inr response_legacy_null) as H1
    by reflexivity.
  assert (200 ≤ status response_legacy_null ≤ 299) as H2 by (simpl; lia).
  assert (base64UrlToObject w "bnVsbA" = inr VNull) as H3 by (vm_compute; reflexivity).
  split; [exact H1|]. split; [exact H2|]. split; [exact H3|].
  apply (send_header_reply_null w _ _ _ VNull H1 H2); [by left|].
  left. exists "b"%char, "nVsbA". split; [reflexivity|exact H3].
Defined.

Lemma send_rejects_error_response_witness :
  let w := example_world response_plain example_error_text in
  exchange example_endpoint example_request w = inr response_plain ∧
  200 ≤ status response_plain ≤ 299 ∧
  body response_plain = Some 7%nat ∧
  body_json w 7%nat = inr example_error_response ∧
  (run (send example_endpoint example_request) w).1 = inl TypeError.
Proof.
  intros w.
  assert (exchange example_endpoint example_request w = inr response_plain) as H1
    by reflexivity.
  assert (200 ≤ status response_plain ≤ 299) as H2 by (simpl; lia).
  assert (body_json w 7%nat = inr example_error_response) as H3
    by (vm_compute; reflexivity).
  split; [exact H1|]. split; [exact H2|]. split; [reflexivity|]. split; [exact H3|].
  apply (send_rejects_error_response w _ _ _ (VStr "uuid-0")
           (VNum JsonRpcErrorCodes.InvalidParams) (VStr "Invalid params") VUndefined
           H1 H2 eq_refl).
  right. split; [reflexivity|]. exists 7%nat. split; [reflexivity|].
  split; [|exact H3]. cbn. apply not_elem_of_empty.
Defined.

Lemma send_unwraps_success_response_witness :
  let w := example_world response_plain example_envelope_text in
  let result := object [("reply", object [("status", example_status)])] in
  exchange example_endpoint example_request w = inr response_plain ∧
  200 ≤ status response_plain ≤ 299 ∧
  body response_plain = Some 7%nat ∧
  body_json w 7%nat = inr (createJsonRpcSuccessResponse (VStr "uuid-0") result) ∧
  (run (send example_endpoint example_request) w).1
    = inr (object [("status", example_status)]).
Proof.
  intros w result.
  assert (exchange example_endpoint example_request w = inr response_plain) as H1
    by reflexivity.
  assert (200 ≤ status response_plain ≤ 299) as H2 by (simpl; lia).
  assert (body_json w 7%nat
          = inr (createJsonRpcSuccessResponse (VStr "uuid-0") result)) as H3
    by (vm_compute; reflexivity).
  assert (7%nat ∉ disturbed w) as H4 by (cbn; apply not_elem_of_empty).
  split; [exact H1|]. split; [exact H2|]. split; [reflexivity|]. split; [exact H3|].
  rewrite (send_unwraps_success_response w _ _ _ _ _ _ H1 H2 eq_refl eq_refl eq_refl H4 H3).
  vm_compute. reflexivity.
Defined.

Lemma send_reply_ignores_request_witness :
  let w := example_world response_legacy example_envelope_text in
  exchange example_endpoint example_request w = inr response_legacy ∧
  exchange "https://other.example/" example_anonymous_request w = inr response_legacy ∧
  (run (send example_endpoint example_request) w).1
    = (run (send "https://other.example/" example_anonymous_request) w).1.
Proof.
  intros w.
  assert (exchange example_endpoint example_request w = inr response_legacy) as H1
    by reflexivity.
  assert (exchange "https://other.example/" example_anonymous_request w
          = inr response_legacy) as H2 by reflexivity.
  split; [exact H1|]. split; [exact H2|].
  exact (send_reply_ignores_request w _ _ _ _ _ H1 H2).
Defined.

Lemma send_failure_names_status_witness :
  let w := example_world response_500 example_envelope_text in
  exchange example_endpoint example_request w = inr response_500 ∧
  ¬ (200 ≤ status response_500 ≤ 299) ∧
  ∃ msg, (run (send example_endpoint example_request) w).1 = inl (Error msg) ∧
         (strip_prefix "Fetch failed with status " msg ≫= parse_number)
           = Some (500, EmptyString).
Proof.
  intros w.
  assert (exchange example_endpoint example_request w = inr response_500) as H1
    by reflexivity.
  assert (¬ (200 ≤ status response_500 ≤ 299)) as H2 by (simpl; lia).
  split; [exact H1|]. split; [exact H2|].
  exact (send_failure_names_status w _ _ _ H1 H2).
Defined.



Lemma createJsonRpcErrorResponse_round_trip_witness :
  let id := VStr "uuid-0" in
  let code := VNum JsonRpcErrorCodes.InvalidParams in
  let message := VStr "Invalid params" in
  serializable id = true ∧ serializable code = true ∧ serializable message = true ∧
  (∃ text, JSON_stringify (createJsonRpcErrorResponse id code message VUndefined) = Some text ∧
           JSON_parse text = inr (createJsonRpcErrorResponse id code message VUndefined)) ∧
  (∃ text, JSON_stringify (createJsonRpcErrorResponse id code message VNull) = Some text ∧
           JSON_parse text = inr (createJsonRpcErrorResponse id code message VNull)).
Proof.
  intros id code message.
  assert (serializable id = true) as H1 by reflexivity.
  assert (serializable code = true) as H2 by reflexivity.
  assert (serializable message = true) as H3 by reflexivity.
  split; [exact H1|]. split; [exact H2|]. split; [exact H3|]. split.
  - exact (proj2 (createJsonRpcErrorResponse_round_trip id code message VUndefined
                    H1 H2 H3 (or_introl eq_refl))).
  - exact (proj2 (createJsonRpcErrorResponse_round_trip id code message VNull
                    H1 H2 H3 (or_intror eq_refl))).
Defined.

Lemma createJsonRpcSuccessResponse_round_trip_witness :
  let id := VNum 7 in
  serializable id = true ∧
  own (createJsonRpcSuccessResponse id VUndefined) "result" = Some VNull ∧
  ∃ text, JSON_stringify (createJsonRpcSuccessResponse id VUndefined) = Some text ∧
          JSON_parse text = inr (createJsonRpcSuccessResponse id VUndefined).
Proof.
  intros id.
  assert (serializable id = true) as H1 by reflexivity.
  split; [exact H1|]. split; [vm_compute; reflexivity|].
  exact (proj2 (proj2 (createJsonRpcSuccessResponse_round_trip id VUndefined H1
                         (or_introl eq_refl)))).
Defined.

Lemma request_without_id_is_notification_witness :
  let method := VStr "dwn.processMessage" in
  let params := object [("recordId", VStr "r1")] in
  encodable method = true ∧ encodable params = true ∧
  JSON_parse <$> JSON_stringify (createJsonRpcRequest VUndefined method params)
    = JSON_parse <$> JSON_stringify (createJsonRpcNotification method params).
Proof.
  intros method params.
  assert (encodable method = true) as H1 by reflexivity.
  assert (encodable params = true) as H2 by (vm_compute; reflexivity).
  split; [exact H1|]. split; [exact H2|].
  destruct (request_without_id_is_notification method params H1 H2) as (image & -> & -> & _).
  reflexivity.
Defined.
